(** * homebox-reminder: due-date evaluation and notification dedup

    A shallow embedding of the core of [app.py]: the due-date evaluator
    [is_due], the SQLite-backed ledger ([get_last_notified],
    [mark_notified], [reset_reminder], [prune_old_entries]) and the
    scheduler [filter_and_notify].

    Modelling conventions.
    - A calendar date ([datetime.date]) is its proleptic Gregorian ordinal
      ([date.toordinal()]), a [Z] in [1 .. 3652059]; date comparison and
      [timedelta] arithmetic are comparison and addition of ordinals, with
      the [OverflowError] of [date.__add__] written out.
    - A maintenance entry is the JSON object returned by the Homebox API,
      a [gmap string jval]; the fields the code reads are strings or
      [null] (the spec's data model), so [jval] has these two shapes.
    - A string is a Rocq [string]; its characters stand for the code
      points below 256.
    - The table [sent_reminders] is the list of its rows; the primary key
      is the invariant [wf_table].
    - [dateutil.parser.parse] is a parameter of the development.
    - Python exceptions are values of [result].
    - The SQLite calls succeed: the [except] branches that only log a
      database error have no counterpart. [notify] sends messages and
      changes nothing the scheduler reads; it does not appear. JSON
      values other than strings and [null] are outside the model. *)

From Stdlib Require Import ZArith Lia Bool Ascii String List.
From stdpp Require Import base option list gmap strings sorting pretty.

Local Open Scope string_scope.
Local Open Scope Z_scope.

(** ** Exceptions *)

Inductive pyexc : Type :=
  | TypeError
  | OverflowError
  | ParserError.

Inductive result (A : Type) : Type :=
  | Ok (a : A)
  | Raise (e : pyexc).
Arguments Ok {A} a.
Arguments Raise {A} e.

(** Sequencing: the first exception raised aborts what follows.
    stdpp's [x ← m; k] is [mbind (fun x => k) m]. *)
#[global] Instance result_bind : MBind result := fun A B k m =>
  match m with
  | Ok a => k a
  | Raise e => Raise e
  end.

(** One step of sequencing on a computed result. *)
Ltac step := unfold mbind, result_bind; cbv beta iota.

(** ** The calendar of [datetime] (Lib/_pydatetime.py) *)

Module Calendar.

Definition MAXORDINAL : Z := 3652059.
Definition DI400Y : Z := 146097.
Definition DI100Y : Z := 36524.
Definition DI4Y : Z := 1461.

Definition is_leap (year : Z) : bool :=
  (year mod 4 =? 0) && (negb (year mod 100 =? 0) || (year mod 400 =? 0)).

Definition days_before_year (year : Z) : Z :=
  let y := year - 1 in
  y * 365 + y / 4 - y / 100 + y / 400.

(** [_DAYS_IN_MONTH], index 0 holding the placeholder -1. *)
Definition DAYS_IN_MONTH (month : Z) : Z :=
  match month with
  | 1 => 31 | 2 => 28 | 3 => 31 | 4 => 30 | 5 => 31 | 6 => 30
  | 7 => 31 | 8 => 31 | 9 => 30 | 10 => 31 | 11 => 30 | 12 => 31
  | _ => -1
  end.

Definition DAYS_BEFORE_MONTH (month : Z) : Z :=
  match month with
  | 1 => 0 | 2 => 31 | 3 => 59 | 4 => 90 | 5 => 120 | 6 => 151
  | 7 => 181 | 8 => 212 | 9 => 243 | 10 => 273 | 11 => 304 | 12 => 334
  | _ => -1
  end.

Definition days_in_month (year month : Z) : Z :=
  if (month =? 2) && is_leap year then 29 else DAYS_IN_MONTH month.

Definition days_before_month (year month : Z) : Z :=
  DAYS_BEFORE_MONTH month + (if (month >? 2) && is_leap year then 1 else 0).

Definition ymd2ord (year month day : Z) : Z :=
  days_before_year year + days_before_month year month + day.

(** [_ord2ymd]: ordinal to (year, month, day). *)
Definition ord2ymd (n0 : Z) : Z * Z * Z :=
  let n := n0 - 1 in
  let n400 := n / DI400Y in
  let n := n mod DI400Y in
  let year := n400 * 400 + 1 in
  let n100 := n / DI100Y in
  let n := n mod DI100Y in
  let n4 := n / DI4Y in
  let n := n mod DI4Y in
  let n1 := n / 365 in
  let n := n mod 365 in
  let year := year + n100 * 100 + n4 * 4 + n1 in
  if (n1 =? 4) || (n100 =? 4) then (year - 1, 12, 31)
  else
    let leapyear := (n1 =? 3) && (negb (n4 =? 24) || (n100 =? 3)) in
    let month := Z.shiftr (n + 50) 5 in
    let preceding :=
      DAYS_BEFORE_MONTH month + (if (month >? 2) && leapyear then 1 else 0) in
    if preceding >? n then
      let month := month - 1 in
      let preceding :=
        preceding
        - (DAYS_IN_MONTH month + (if (month =? 2) && leapyear then 1 else 0)) in
      (year, month, n - preceding + 1)
    else (year, month, n - preceding + 1).

(** A value of type [date]: an ordinal in range. *)
Definition valid_date (d : Z) : Prop := 1 <= d <= MAXORDINAL.

Definition valid_dateb (d : Z) : bool := (1 <=? d) && (d <=? MAXORDINAL).

(** [date(year, month, day)], for fields already checked by the caller. *)
Definition date_of (year month day : Z) : Z := ymd2ord year month day.

Definition digit (n : Z) : ascii := ascii_of_N (Z.to_N (48 + n)).

(** ["%02d"] and ["%04d"] on the ranges the date fields take. *)
Definition fmt02 (n : Z) (rest : string) : string :=
  String (digit (n / 10 mod 10)) (String (digit (n mod 10)) rest).

Definition fmt04 (n : Z) (rest : string) : string :=
  String (digit (n / 1000 mod 10)) (String (digit (n / 100 mod 10))
    (fmt02 n rest)).

(** ["%04d-%02d-%02d" % (year, month, day)]. *)
Definition iso_of_ymd (t : Z * Z * Z) : string :=
  let '(y, m, d) := t in
  fmt04 y (String "-"%char (fmt02 m (String "-"%char (fmt02 d EmptyString)))).

(** [date.isoformat()] of the date with ordinal [d]. *)
Definition isoformat (d : Z) : string := iso_of_ymd (ord2ymd d).

(** *** Auxiliary notions for the calendar facts *)

(** A (year, month, day) triple that [date(...)] accepts. *)
Definition valid_ymd (y m d : Z) : Prop :=
  1 <= y <= 9999 /\ 1 <= m <= 12 /\ 1 <= d <= days_in_month y m.

(** The month search of [ord2ymd], on the day-of-year [n] (from 0). *)
Definition month_day (n : Z) (leapyear : bool) : Z * Z :=
  let month := Z.shiftr (n + 50) 5 in
  let preceding :=
    DAYS_BEFORE_MONTH month + (if (month >? 2) && leapyear then 1 else 0) in
  if preceding >? n then
    let month := month - 1 in
    let preceding :=
      preceding
      - (DAYS_IN_MONTH month + (if (month =? 2) && leapyear then 1 else 0)) in
    (month, n - preceding + 1)
  else (month, n - preceding + 1).

Definition month_day_ok (leapyear : bool) (n : nat) : bool :=
  let '(m, d) := month_day (Z.of_nat n) leapyear in
  (1 <=? m) && (m <=? 12) && (1 <=? d)
  && (d <=? DAYS_IN_MONTH m + (if (m =? 2) && leapyear then 1 else 0))
  && (DAYS_BEFORE_MONTH m + (if (m >? 2) && leapyear then 1 else 0) + d
      =? Z.of_nat n + 1).

(** The integer YYYYMMDD: its order is the order of (year, month, day). *)
Definition ymd_code (t : Z * Z * Z) : Z :=
  let '(y, m, d) := t in y * 10000 + m * 100 + d.

End Calendar.

(** ** Python values and the built-ins the code uses *)

(** A JSON field value: [null] or a string. *)
Inductive jval : Type :=
  | JNull
  | JStr (s : string).

Abbreviation entry := (gmap string jval).

(** Truth value of an object: [None] and [""] are falsy. *)
Definition truthy (v : jval) : bool :=
  match v with
  | JNull => false
  | JStr s => negb (s =? "")%string
  end.

(** [a or b]. *)
Definition py_or (a b : jval) : jval := if truthy a then a else b.

(** [d.get(k)]: the value, or [None] for a missing key. *)
Definition dict_get (d : entry) (k : string) : jval := default JNull (d !! k).

(** [str(x)]. *)
Definition py_str (v : jval) : string :=
  match v with
  | JNull => "None"
  | JStr s => s
  end.

(** [c.isspace()] on the code points below 256. *)
Definition isspace (c : ascii) : bool :=
  match N_of_ascii c with
  | 9 | 10 | 11 | 12 | 13 | 28 | 29 | 30 | 31 | 32 | 133 | 160 => true
  | _ => false
  end%N.

Fixpoint lstrip (s : string) : string :=
  match s with
  | EmptyString => EmptyString
  | String c s' => if isspace c then lstrip s' else s
  end.

Fixpoint rstrip (s : string) : string :=
  match s with
  | EmptyString => EmptyString
  | String c s' =>
      match rstrip s' with
      | EmptyString => if isspace c then EmptyString else String c EmptyString
      | r => String c r
      end
  end.

(** [s.strip()]. *)
Definition strip (s : string) : string := lstrip (rstrip s).

(** ** Dates, [timedelta] and the date parser *)

(** [timedelta(days=n)]: the day count, or [OverflowError] beyond
    999999999 days either way. *)
Definition timedelta (days : Z) : result Z :=
  if (-999999999 <=? days) && (days <=? 999999999) then Ok days
  else Raise OverflowError.

(** [d + delta] on a date. *)
Definition date_add (d delta : Z) : result Z :=
  let o := d + delta in
  if (0 <? o) && (o <=? Calendar.MAXORDINAL) then Ok o else Raise OverflowError.

(** [d - delta] on a date is [d + (-delta)]. *)
Definition date_sub (d delta : Z) : result Z := date_add d (- delta).

(** [dateutil.parser.parse] on a string, followed by [.date()]: the
    library is outside the repository, so the function it computes is a
    parameter. *)
Class DateParser := parse_date : string -> option Z.

(** What the code sees of the parser: a date of type [date], or an
    exception; the empty string holds no date. *)
Definition dateparser_parse `{DateParser} (timestr : string) : result Z :=
  if (timestr =? "")%string then Raise ParserError
  else match parse_date timestr with
       | Some d => if Calendar.valid_dateb d then Ok d else Raise ParserError
       | None => Raise ParserError
       end.

(** [dateparser.parse(v)] on a field value: only strings are parsed. *)
Definition parse_field `{DateParser} (v : jval) : result Z :=
  match v with
  | JNull => Raise TypeError
  | JStr s => dateparser_parse s
  end.

(** ** Configuration *)

Record ReminderConfig : Type := {
  REMIND_START_DAYS_BEFORE : Z;
  REMIND_END_DAYS_AFTER : Z;
  REMIND_REPEAT_DAYS : Z
}.

(** ** The due-date evaluator *)

(** [is_due(entry)], with [today] the value of
    [datetime.now(timezone.utc).date()] read inside the call. *)
Definition is_due `{DateParser} (cfg : ReminderConfig) (today : Z)
    (entry : entry) : result bool :=
  let sched :=
    py_or (dict_get entry "scheduledDate") (dict_get entry "scheduled_date") in
  let comp :=
    py_or (py_or (dict_get entry "completedDate") (dict_get entry "date"))
          (dict_get entry "completed_date") in
  if negb (truthy sched) then Ok false
  else
    match parse_field sched with
    | Raise _ => Ok false
    | Ok sd =>
        let completed :=
          truthy comp &&
          match parse_field comp with Ok _ => true | Raise _ => false end in
        if completed then Ok false
        else
          before ← timedelta (REMIND_START_DAYS_BEFORE cfg);
          start_date ← date_sub sd before;
          after ← timedelta (REMIND_END_DAYS_AFTER cfg);
          end_date ← date_add sd after;
          if (today <? start_date) || (today >? end_date) then Ok false
          else if REMIND_REPEAT_DAYS cfg <=? 0 then
            Ok ((start_date <=? today) && (today <=? end_date))
          else
            let delta_days := today - start_date in
            Ok (delta_days mod REMIND_REPEAT_DAYS cfg =? 0)
    end.

(** ** The ledger: table [sent_reminders(id TEXT PRIMARY KEY, last_notified DATE)] *)

(** A row is [(id, last_notified)]. The program only ever writes
    [date.isoformat()] strings to [last_notified], which the column
    stores as text. *)
Abbreviation row := (string * string)%type.
Abbreviation table := (list row).

(** The primary key: no two rows share an id. *)
Definition wf_table (t : table) : Prop := NoDup (fst <$> t).

(** [SELECT last_notified FROM sent_reminders WHERE id = ?], [fetchone]. *)
Fixpoint get_last_notified (t : table) (entry_id : string) : option string :=
  match t with
  | [] => None
  | (k, v) :: rest =>
      if (k =? entry_id)%string then Some v else get_last_notified rest entry_id
  end.

(** [INSERT ... ON CONFLICT(id) DO UPDATE SET
    last_notified = excluded.last_notified]. *)
Fixpoint mark_notified (t : table) (entry_id when : string) : table :=
  match t with
  | [] => [(entry_id, when)]
  | (k, v) :: rest =>
      if (k =? entry_id)%string then (k, when) :: rest
      else (k, v) :: mark_notified rest entry_id when
  end.

(** [DELETE FROM sent_reminders WHERE <cond>]: the rows kept. *)
Definition sql_delete (cond : row -> bool) (t : table) : table :=
  List.filter (fun r => negb (cond r)) t.

(** [reset_reminder(path, entry_id)]: the returned flag and the table. *)
Definition reset_reminder (t : table) (entry_id : string) : bool * table :=
  if (entry_id =? "all")%string then (true, [])
  else (true, sql_delete (fun r => (fst r =? entry_id)%string) t).

(** [prune_old_entries(path, days)]: the returned count and the table.
    The comparison [last_notified <= ?] is SQLite's comparison of two
    text values, byte by byte. An exception inside the [try] leaves the
    table as it is and returns 0. *)
Definition prune_old_entries (today : Z) (t : table) (days : Z) : Z * table :=
  if days <=? 0 then (0, t)
  else
    match (delta ← timedelta days; date_sub today delta) with
    | Raise _ => (0, t)
    | Ok cutoff_date =>
        let cutoff := Calendar.isoformat cutoff_date in
        let t' := sql_delete (fun r => (snd r <=? cutoff)%string) t in
        (Z.of_nat (length t - length t'), t')
    end.

(** ** The scheduler *)

(** The dedup key of an entry: the first truthy of [id], [ID], [Id], or
    the fallback built from the name and the scheduled date. Adding
    ["::"] to a name that is [None] raises [TypeError]. *)
Definition fallback_key (e : entry) : result string :=
  name ← match e !! "name" with
         | None => Ok ""
         | Some (JStr n) => Ok n
         | Some JNull => Raise TypeError
         end;
  Ok (strip (name +:+ "::" +:+
             py_str (py_or (py_or (dict_get e "scheduledDate")
                                  (dict_get e "scheduled_date"))
                           (JStr "")))).

Definition entry_key (e : entry) : result string :=
  match py_or (py_or (dict_get e "id") (dict_get e "ID")) (dict_get e "Id") with
  | JStr s => if (s =? "")%string then fallback_key e else Ok s
  | JNull => fallback_key e
  end.

(** The [for e in entries] loop of [filter_and_notify]. [today] is the
    ISO string computed once before the loop; [clock i] is the UTC date
    observed by the call of [is_due] on the [i]-th remaining entry. The
    result is [to_notify]. *)
Fixpoint scan `{DateParser} (cfg : ReminderConfig) (today : string)
    (t : table) (clock : nat -> Z) (entries : list entry)
    : result (list (string * entry)) :=
  match entries with
  | [] => Ok []
  | e :: rest =>
      eid ← entry_key e;
      due ← is_due cfg (clock O) e;
      to_notify ← scan cfg today t (fun i => clock (S i)) rest;
      if negb due then Ok to_notify
      else if bool_decide (get_last_notified t eid = Some today)
      then Ok to_notify
      else Ok ((eid, e) :: to_notify)
  end.

(** The closing loop: [mark_notified(DB_PATH, eid, today)] for each pair. *)
Fixpoint commit (today : string) (to_notify : list (string * entry))
    (t : table) : table :=
  match to_notify with
  | [] => t
  | (eid, _) :: rest => commit today rest (mark_notified t eid today)
  end.

(** [filter_and_notify(entries)]: the list handed to [notify] paired with
    its keys, and the table afterwards. [today] is the date read at the
    top of the function. *)
Definition filter_and_notify `{DateParser} (cfg : ReminderConfig) (today : Z)
    (clock : nat -> Z) (t : table) (entries : list entry)
    : result (list (string * entry) * table) :=
  let today_iso := Calendar.isoformat today in
  to_notify ← scan cfg today_iso t clock entries;
  match to_notify with
  | [] => Ok ([], t)
  | _ => Ok (to_notify, commit today_iso to_notify t)
  end.

(** ** Notions used in the statements *)

Section Statements.
Context `{DateParser}.

(** The field [k] of [e] holds a string that parses as a date. *)
Definition field_parses (e : entry) (k : string) : Prop :=
  exists s d, e !! k = Some (JStr s) /\ dateparser_parse s = Ok d.

(** No completion marker: none of the fields the evaluator reads as a
    completion date holds a parsable date. *)
Definition no_completion (e : entry) : Prop :=
  ~ field_parses e "completedDate" /\ ~ field_parses e "date" /\
  ~ field_parses e "completed_date".

(** The field [k] of [e] is missing, [null], or a string that does not
    parse as a date (the empty string among them). *)
Definition field_bad (e : entry) (k : string) : Prop :=
  e !! k = None \/ e !! k = Some JNull \/
  exists s, e !! k = Some (JStr s) /\ forall d, dateparser_parse s <> Ok d.

(** The completion test of [is_due]. *)
Definition completed (e : entry) : bool :=
  let comp :=
    py_or (py_or (dict_get e "completedDate") (dict_get e "date"))
          (dict_get e "completed_date") in
  truthy comp && match parse_field comp with Ok _ => true | Raise _ => false end.

(** The field [k] of [e] is missing, [null] or the empty string. *)
Definition field_empty (e : entry) (k : string) : Prop :=
  e !! k = None \/ e !! k = Some JNull \/ e !! k = Some (JStr "").

(** The reminder window of [e] under [cfg] has dates as its two ends,
    whenever [e] has a scheduled date at all. *)
Definition window_fits (cfg : ReminderConfig) (e : entry) : Prop :=
  forall s sd,
    py_or (dict_get e "scheduledDate") (dict_get e "scheduled_date") = JStr s ->
    dateparser_parse s = Ok sd ->
    Calendar.valid_date (sd - REMIND_START_DAYS_BEFORE cfg) /\
    Calendar.valid_date (sd + REMIND_END_DAYS_AFTER cfg).

End Statements.

(** Every stored [last_notified] is the ISO form of a date: what
    [mark_notified] maintains, since the scheduler only writes
    [today.isoformat()]. *)
Definition iso_table (t : table) : Prop :=
  forall k v, (k, v) ∈ t ->
    exists d, Calendar.valid_date d /\ v = Calendar.isoformat d.

(** Rows holding the id [k]. *)
Definition rows_of (k : string) (t : table) : table :=
  List.filter (fun r => (fst r =? k)%string) t.

(** The string begins, or ends, with a whitespace character. *)
Definition starts_with_space (s : string) : bool :=
  match s with
  | EmptyString => false
  | String c _ => isspace c
  end.

Fixpoint ends_with_space (s : string) : bool :=
  match s with
  | EmptyString => false
  | String c EmptyString => isspace c
  | String _ s' => ends_with_space s'
  end.

(** ** Listing the ledger *)

(** [ORDER BY last_notified DESC], the comparison being that of two text
    values as in [prune_old_entries]. SQL leaves the order of rows with
    equal [last_notified] to the engine; the insertion below puts a row
    before the rows it ties with. *)
Fixpoint insert_desc (r : row) (l : table) : table :=
  match l with
  | [] => [r]
  | r' :: l' =>
      if (snd r' <=? snd r)%string then r :: l else r' :: insert_desc r l'
  end.

Definition order_by_last_notified_desc (t : table) : table :=
  foldr insert_desc [] t.

(** [LIMIT ?]: a negative limit is no limit. *)
Definition sql_limit (limit : Z) (l : table) : table :=
  if limit <? 0 then l else take (Z.to_nat limit) l.

(** [list_reminders(path, limit)]. An integer outside the 64-bit range
    cannot be bound to the statement: the [OverflowError] is caught by the
    handler, which returns the empty list. *)
Definition list_reminders (t : table) (limit : Z) : table :=
  if (limit <? - 2 ^ 63) || (2 ^ 63 <=? limit) then []
  else sql_limit limit (order_by_last_notified_desc t).

(** [r1] is at least as recent as [r2], by the text of [last_notified]. *)
Definition newer_or_same (r1 r2 : row) : Prop :=
  (snd r2 <=? snd r1)%string = true.

(** ** The Homebox API, one poll and the service loop *)

(** What a [requests] call did: it raised, or it returned a response with
    a status code and a body, which [r.json()] reads as a value of the
    expected shape or fails on. *)
Inductive http_result (A : Type) : Type :=
  | NoResponse
  | Response (status_code : Z) (json : option A).
Arguments NoResponse {A}.
Arguments Response {A} status_code json.

(** [fetch_scheduled_maintenance()], on the outcome of its request. *)
Definition fetch_scheduled_maintenance (r : http_result (list entry))
    : list entry :=
  match r with
  | NoResponse => []
  | Response status_code json =>
      if status_code =? 401 then []
      else if negb (status_code =? 200) then []
      else match json with
           | None => []
           | Some data => data
           end
  end.

(** One iteration of [main_loop] as the world presents it: the answer to
    the request, the date read at the top of [filter_and_notify] and the
    dates read by the calls of [is_due]. *)
Record poll : Type := {
  poll_response : http_result (list entry);
  poll_today : Z;
  poll_clock : nat -> Z
}.

(** The iterations of [main_loop] over the polls given, one after the
    other; with [RUN_ONCE] the loop is left after the first. The result
    is the notify set of each iteration and the table at the end. An
    exception leaves the loop. *)
Fixpoint main_loop `{DateParser} (cfg : ReminderConfig) (RUN_ONCE : bool)
    (polls : list poll) (t : table)
    : result (list (list (string * entry)) * table) :=
  match polls with
  | [] => Ok ([], t)
  | p :: rest =>
      let entries := fetch_scheduled_maintenance (poll_response p) in
      r ← filter_and_notify cfg (poll_today p) (poll_clock p) t entries;
      if RUN_ONCE then Ok ([r.1], r.2)
      else
        r' ← main_loop cfg RUN_ONCE rest r.2;
        Ok (r.1 :: r'.1, r'.2)
  end.

(** The part of [s] before the first ["::"], when there is one:
    [s.split("::", 1)[0]] under the test ["::" in s]. *)
Fixpoint before_sep (s : string) : option string :=
  match s with
  | EmptyString => None
  | String c s' =>
      match s' with
      | EmptyString => None
      | String c' _ =>
          if (c =? ":")%char && (c' =? ":")%char then Some EmptyString
          else String c <$> before_sep s'
      end
  end.

(** [get_maintenance_name(entry_id)]; [api id] is the outcome of the
    request for the maintenance entry [id]. *)
Definition get_maintenance_name (api : string -> http_result entry)
    (entry_id : string) : string :=
  match before_sep entry_id with
  | Some name => name
  | None =>
      match api entry_id with
      | Response status_code (Some data) =>
          if status_code =? 200 then
            match py_or (dict_get data "name") (dict_get data "Name") with
            | JStr name => if (name =? "")%string then entry_id else name
            | JNull => entry_id
            end
          else entry_id
      | _ => entry_id
      end
  end.

(** ** Notification *)

(** [s.replace(";", ",")]. *)
Fixpoint replace_semicolons (s : string) : string :=
  match s with
  | EmptyString => EmptyString
  | String c s' =>
      String (if (c =? ";")%char then ","%char else c) (replace_semicolons s')
  end.

(** [s.split(",")]: the pieces between the commas, [[""]] for the empty
    string. *)
Fixpoint split_commas (s : string) : list string :=
  match s with
  | EmptyString => [EmptyString]
  | String c s' =>
      if (c =? ",")%char then EmptyString :: split_commas s'
      else match split_commas s' with
           | [] => [String c EmptyString]
           | piece :: pieces => String c piece :: pieces
           end
  end.

(** The URL list of [notify]:
    [[u.strip() for u in NOTIFIER_URLS.replace(";", ",").split(",") if u.strip()]]. *)
Definition notifier_urls (NOTIFIER_URLS : string) : list string :=
  List.filter (fun u => negb (u =? "")%string)
              (strip <$> split_commas (replace_semicolons NOTIFIER_URLS)).

(** [sep.join(parts)]. *)
Fixpoint str_join (sep : string) (parts : list string) : string :=
  match parts with
  | [] => EmptyString
  | [p] => p
  | p :: rest => p +:+ sep +:+ str_join sep rest
  end.

Definition newline : string := String (ascii_of_nat 10) EmptyString.

(** The line of one entry in the message. *)
Definition reminder_line (e : entry) : string :=
  let name := py_or (dict_get e "name") (JStr "<unnamed>") in
  let item :=
    py_or (py_or (dict_get e "itemName") (dict_get e "item_name")) (JStr "") in
  let sd :=
    py_or (dict_get e "scheduledDate") (dict_get e "scheduled_date") in
  " - " +:+ py_str name +:+ " "
  +:+ (if truthy item then "for " +:+ py_str item else "")
  +:+ " scheduled: " +:+ py_str sd.

Definition reminder_message (entries : list entry) : string :=
  str_join newline
    (("Homebox maintenance reminders (" +:+ pretty (length entries) +:+ "):")
     :: (reminder_line <$> entries)).

(** What [notify] sends: one Apprise notification to the servers loaded,
    or one POST of [{"text": message}] to the webhook. *)
Inductive delivery : Type :=
  | AppriseNotify (servers : list string) (title body : string)
  | WebhookPost (url text : string).

(** [notify(entries)]: the deliveries attempted. [loads u] tells whether
    [a.add(u)] loads a server for the URL [u]; the Apprise object is
    truthy when it holds a server. *)
Definition notify (loads : string -> bool)
    (NOTIFIER_URLS NOTIFIER_WEBHOOK : string) (entries : list entry)
    : list delivery :=
  match entries with
  | [] => []
  | _ =>
      let message := reminder_message entries in
      let servers :=
        if (NOTIFIER_URLS =? "")%string then []
        else List.filter loads (notifier_urls NOTIFIER_URLS) in
      match servers with
      | _ :: _ =>
          [AppriseNotify servers "Homebox maintenance reminders" message]
      | [] =>
          if (NOTIFIER_WEBHOOK =? "")%string then []
          else [WebhookPost NOTIFIER_WEBHOOK message]
      end
  end.

(** ** The boxed table *)

(** A printed line: its code points. The box-drawing characters lie
    beyond the code points of [string]. *)
Abbreviation line := (list N).

Definition ustr (s : string) : line := N_of_ascii <$> list_ascii_of_string s.

Definition box_H : N := 9472.   (* U+2500 *)
Definition box_V : N := 9474.   (* U+2502 *)
Definition box_TL : N := 9484.  (* U+250C *)
Definition box_TR : N := 9488.  (* U+2510 *)
Definition box_BL : N := 9492.  (* U+2514 *)
Definition box_BR : N := 9496.  (* U+2518 *)
Definition box_TJ : N := 9516.  (* U+252C *)
Definition box_MJ : N := 9532.  (* U+253C *)
Definition box_BJ : N := 9524.  (* U+2534 *)
Definition box_LJ : N := 9500.  (* U+251C *)
Definition box_RJ : N := 9508.  (* U+2524 *)

(** [s.ljust(w)]. *)
Definition ljust (s : line) (w : nat) : line :=
  (s ++ replicate (w - length s) 32%N)%list.

(** [sep.join(parts)] on lines. *)
Fixpoint line_join (sep : line) (parts : list line) : line :=
  match parts with
  | [] => []
  | [p] => p
  | p :: rest => (p ++ sep ++ line_join sep rest)%list
  end.

(** The inner loop [for i in range(cols): widths[i] = max(widths[i],
    len(str(r[i])))]; [r[i]] beyond the end of the row raises
    [IndexError], here [None]. *)
Definition widen (cols : nat) (widths : list nat) (r : list string)
    : option (list nat) :=
  foldl (fun acc i =>
           ws ← acc;
           cell ← r !! i;
           Some (alter (fun w => Nat.max w (String.length cell)) i ws))
        (Some widths) (seq 0 cols).

Definition column_widths (headers : list string) (rows : list (list string))
    : option (list nat) :=
  foldl (fun acc r => ws ← acc; widen (length headers) ws r)
        (Some (String.length <$> headers)) rows.

(** [hor_line(left, mid, right)]. *)
Definition hor_line (widths : list nat) (left mid right : N) : line :=
  (left :: line_join [mid] ((fun w => replicate (w + 2) box_H) <$> widths)
     ++ [right])%list.

(** The cells [f" {str(r[i]).ljust(widths[i])} "] for [i] in
    [range(cols)], between vertical bars. *)
Definition text_line (cols : nat) (widths : list nat) (r : list string)
    : option line :=
  cells ← mapM (fun i =>
                  cell ← r !! i;
                  w ← widths !! i;
                  Some (32%N :: ljust (ustr cell) w ++ [32%N])%list)
               (seq 0 cols);
  Some (box_V :: line_join [box_V] cells ++ [box_V])%list.

(** The lines of the rows from index [idx] on: each row, then a
    separator, or the bottom border after the last. *)
Fixpoint row_lines (cols : nat) (widths : list nat) (n idx : nat)
    (rows : list (list string)) : option (list line) :=
  match rows with
  | [] => Some []
  | r :: rest =>
      l ← text_line cols widths r;
      ls ← row_lines cols widths n (S idx) rest;
      Some (l :: (if (idx <? n - 1)%nat
                  then hor_line widths box_LJ box_MJ box_RJ
                  else hor_line widths box_BL box_BJ box_BR) :: ls)
  end.

(** [render_boxed_table(headers, rows)]: the lines printed, or [None]
    for the [IndexError] of a row shorter than the headers, which is
    raised before anything is printed. *)
Definition render_boxed_table (headers : list string)
    (rows : list (list string)) : option (list line) :=
  let cols := length headers in
  widths ← column_widths headers rows;
  hdr ← text_line cols widths headers;
  body ← row_lines cols widths (length rows) O rows;
  Some (hor_line widths box_TL box_TJ box_TR
        :: hdr
        :: hor_line widths box_LJ box_MJ box_RJ
        :: body).

(** The [--list] branch of the command line: the lines printed, [None]
    for an exception. [get_maintenance_name] runs under a handler that
    falls back to the stored id; it raises nothing here. *)
Definition list_command (api : string -> http_result entry) (t : table)
    (limit : Z) : option (list line) :=
  let rows := list_reminders t limit in
  match rows with
  | [] => Some [ustr "No persisted reminders found."]
  | _ =>
      let table_rows :=
        (fun r : row => [get_maintenance_name api r.1; r.1; r.2]) <$> rows in
      render_boxed_table ["Name"; "ID"; "Last Notified"] table_rows
  end.

(** ** Further notions used in the statements *)

(** The evaluator answered [True]. *)
Definition returns_true (r : result bool) : bool :=
  match r with
  | Ok true => true
  | _ => false
  end.

(** The days from [first] to [last] on which [e] is due. *)
Definition due_days `{DateParser} (cfg : ReminderConfig) (e : entry)
    (first last : Z) : list Z :=
  List.filter (fun d => returns_true (is_due cfg d e))
              (seqZ first (last - first + 1)).

(** The scheduled date [is_due] reads from [e] is the string [s]: the
    field [scheduledDate], or [scheduled_date] when the former is missing,
    [null] or empty. *)
Definition scheduled_as (e : entry) (s : string) : Prop :=
  s <> "" /\
  (e !! "scheduledDate" = Some (JStr s) \/
   (field_empty e "scheduledDate" /\ e !! "scheduled_date" = Some (JStr s))).

(** The entry has neither an id nor a name to build a key from: [id],
    [ID] and [Id] are missing, [null] or empty and [name] is [null]. *)
Definition keyless (e : entry) : Prop :=
  field_empty e "id" /\ field_empty e "ID" /\ field_empty e "Id" /\
  e !! "name" = Some JNull.

(** The text holds no ["::"] and does not end with [":"], so that an
    appended ["::"] is the first in the result. *)
Definition sep_free (s : string) : Prop := before_sep (s +:+ ":") = None.

(** The text holds a comma or a semicolon. *)
Fixpoint has_separator (s : string) : bool :=
  match s with
  | EmptyString => false
  | String c s' => (c =? ",")%char || (c =? ";")%char || has_separator s'
  end.

(** A URL as [notifier_urls] yields them: not empty, no whitespace at
    either end, no comma and no semicolon. *)
Definition clean_url (u : string) : Prop :=
  u <> "" /\ starts_with_space u = false /\ ends_with_space u = false /\
  has_separator u = false.

(** The message a delivery carries: the body of the Apprise
    notification, the ["text"] of the webhook's JSON. *)
Definition delivery_text (d : delivery) : string :=
  match d with
  | AppriseNotify _ _ body => body
  | WebhookPost _ text => text
  end.

(** The line [l] of a message shows the entry [e] with the scheduled
    date [is_due] read from it: [e] has a scheduled date that parses,
    and [l] ends with [" scheduled: "] and that string. *)
Definition shows_date `{DateParser} (e : entry) (l : string) : Prop :=
  exists s sd prefix,
    scheduled_as e s /\ dateparser_parse s = Ok sd /\
    l = prefix +:+ " scheduled: " +:+ s.

(** Each cell of [r] fits the width of its column. *)
Definition fits (ws : list nat) (r : list string) : Prop :=
  forall i w cell, ws !! i = Some w -> r !! i = Some cell ->
                   (String.length cell <= w)%nat.

(** ** A reference parser

    The theorems below hold for every [DateParser]. To run the
    definitions on concrete entries, [iso_parser] reads the calendar
    dates [YYYY-MM-DD] (the form in which the scheduler itself writes
    dates) and nothing else. *)

Definition digit_val (c : ascii) : option Z :=
  let n := Z.of_N (N_of_ascii c) in
  if (48 <=? n) && (n <=? 57) then Some (n - 48) else None.

Definition iso_parse (s : string) : option Z :=
  match s with
  | String y3 (String y2 (String y1 (String y0 (String "-"
      (String m1 (String m0 (String "-" (String d1 (String d0 EmptyString)))))))))
    =>
      a ← digit_val y3; b ← digit_val y2; c ← digit_val y1; d ← digit_val y0;
      m1' ← digit_val m1; m0' ← digit_val m0;
      d1' ← digit_val d1; d0' ← digit_val d0;
      let year := 1000 * a + 100 * b + 10 * c + d in
      let month := 10 * m1' + m0' in
      let day := 10 * d1' + d0' in
      if (1 <=? year) && (1 <=? month) && (month <=? 12) && (1 <=? day)
         && (day <=? Calendar.days_in_month year month)
      then Some (Calendar.date_of year month day)
      else None
  | _ => None
  end.

Definition iso_parser : DateParser := iso_parse.

(** The entry of the spec's scenarios and two configurations for it. *)
Definition pump : entry :=
  {[ "id" := JStr "m-1"; "name" := JStr "Replace filter";
     "scheduledDate" := JStr "2024-06-10" ]}.

Definition cfg_daily : ReminderConfig :=
  {| REMIND_START_DAYS_BEFORE := 3; REMIND_END_DAYS_AFTER := 2;
     REMIND_REPEAT_DAYS := 0 |}.

Definition cfg_every2 : ReminderConfig :=
  {| REMIND_START_DAYS_BEFORE := 3; REMIND_END_DAYS_AFTER := 2;
     REMIND_REPEAT_DAYS := 2 |}.

Definition cfg_zero : ReminderConfig :=
  {| REMIND_START_DAYS_BEFORE := 0; REMIND_END_DAYS_AFTER := 0;
     REMIND_REPEAT_DAYS := 0 |}.

Definition june (day : Z) : Z := Calendar.date_of 2024 6 day.

(** The same entry marked completed, through [completedDate] and through
    the generic [date] field. *)
Definition pump_done : entry := <[ "completedDate" := JStr "2024-06-08" ]> pump.

Definition pump_dated : entry := <[ "date" := JStr "2024-06-01" ]> pump.

(** An entry that carries its scheduled date under [scheduled_date] only,
    one whose [scheduledDate] does not parse, and one without an id whose
    name begins with a space. *)
Definition alias_only : entry :=
  {[ "id" := JStr "m-2"; "scheduled_date" := JStr "2024-06-10" ]}.

Definition garbled : entry :=
  {[ "id" := JStr "m-3"; "scheduledDate" := JStr "soon";
     "scheduled_date" := JStr "2024-06-10" ]}.

Definition padded : entry :=
  {[ "name" := JStr " Replace filter"; "scheduledDate" := JStr "2024-06-10" ]}.

(** A ledger with three rows, and one holding the id ["all"]. *)
Definition ledger3 : table :=
  [("m-1", "2024-06-01"); ("m-2", "2024-06-05"); ("m-3", "2024-06-06")].

Definition ledger_all : table :=
  [("all", "2024-06-01"); ("m-1", "2024-06-05")].

(** Entries and polls for the further statements: the scenario entry with
    a completion date that does not parse, an entry scheduled at the
    start of the calendar, an entry without id and with a [null] name,
    and two polls of 2024-06-08 that both return the scenario entry. *)
Definition pump_tbd : entry :=
  <[ "completedDate" := JStr "tbd" ]>
    (<[ "completed_date" := JStr "2024-06-01" ]> pump).

Definition ancient : entry :=
  {[ "id" := JStr "m-0"; "scheduledDate" := JStr "0001-01-02" ]}.

Definition nameless : entry :=
  {[ "name" := JNull; "scheduledDate" := JStr "2024-06-10" ]}.

Definition poll_june8 : poll :=
  {| poll_response := Response 200 (Some [pump]);
     poll_today := june 8;
     poll_clock := fun _ => june 8 |}.

Definition no_api : string -> http_result entry := fun _ => NoResponse.

(** * Facts *)

Example iso_ex1 : Calendar.isoformat (Calendar.date_of 2024 6 10) = "2024-06-10".
Proof. reflexivity. Qed.
Example iso_ex2 : Calendar.isoformat 1 = "0001-01-01".
Proof. reflexivity. Qed.
Example iso_ex3 : Calendar.isoformat Calendar.MAXORDINAL = "9999-12-31".
Proof. reflexivity. Qed.
Example iso_ex4 : Calendar.date_of 2024 6 10 = 739047.
Proof. reflexivity. Qed.
Example iso_ex5 :
  Calendar.isoformat (Calendar.date_of 2024 2 29) = "2024-02-29" /\
  Calendar.isoformat (Calendar.date_of 2024 12 31) = "2024-12-31" /\
  Calendar.isoformat (Calendar.date_of 2000 12 31) = "2000-12-31" /\
  Calendar.isoformat (Calendar.date_of 1900 3 1) = "1900-03-01".
Proof. repeat split; reflexivity. Qed.

Example is_due_daily_ex :
  map (fun d => @is_due iso_parser cfg_daily (june d) pump)
      [6; 7; 8; 9; 10; 11; 12; 13]
  = map Ok [false; true; true; true; true; true; true; false].
Proof. vm_compute. reflexivity. Qed.

Example is_due_every2_ex :
  map (fun d => @is_due iso_parser cfg_every2 (june d) pump)
      [6; 7; 8; 9; 10; 11; 12; 13]
  = map Ok [false; true; false; true; false; true; false; false].
Proof. vm_compute. reflexivity. Qed.

Example strip_ex :
  strip "  a b  " = "a b" /\ strip "   " = "" /\ strip "x" = "x" /\
  strip (String (ascii_of_nat 9) (String (ascii_of_nat 160) "x y ")) = "x y".
Proof. repeat split; reflexivity. Qed.

Example key_ex :
  entry_key pump = Ok "m-1" /\
  entry_key (delete "id" pump) = Ok "Replace filter::2024-06-10".
Proof. split; vm_compute; reflexivity. Qed.

Example run_ex :
  @filter_and_notify iso_parser cfg_daily (june 8) (fun _ => june 8) [] [pump]
  = Ok ([("m-1", pump)], [("m-1", "2024-06-08")]).
Proof. vm_compute. reflexivity. Qed.

(** ** The calendar: [ord2ymd] inverts [ymd2ord], and ISO strings order as dates *)

Module CalendarFacts.
Import Calendar.

Lemma is_leap_cases y :
  is_leap y = true /\ y mod 4 = 0 /\ (y mod 100 <> 0 \/ y mod 400 = 0) \/
  is_leap y = false /\ (y mod 4 <> 0 \/ (y mod 100 = 0 /\ y mod 400 <> 0)).
Proof.
  unfold is_leap.
  destruct (Z.eqb_spec (y mod 4) 0), (Z.eqb_spec (y mod 100) 0),
    (Z.eqb_spec (y mod 400) 0); simpl; lia.
Qed.

Lemma days_before_year_succ y :
  days_before_year (y + 1) =
  days_before_year y + 365 + (if is_leap y then 1 else 0).
Proof.
  unfold days_before_year.
  destruct (is_leap_cases y) as [(-> & H4 & H100) | (-> & H)];
    Z.div_mod_to_equations; lia.
Qed.

Lemma days_before_year_mono y y' :
  y <= y' -> days_before_year y <= days_before_year y'.
Proof.
  intros Hle. unfold days_before_year. Z.div_mod_to_equations. lia.
Qed.

Lemma month_day_table (leapyear : bool) :
  forallb (month_day_ok leapyear)
          (seq 0 (if leapyear then 366 else 365)%nat) = true.
Proof. destruct leapyear; vm_compute; reflexivity. Qed.

Lemma month_day_spec n (leapyear : bool) m d :
  0 <= n < 365 + (if leapyear then 1 else 0) ->
  month_day n leapyear = (m, d) ->
  1 <= m <= 12 /\
  1 <= d <= DAYS_IN_MONTH m + (if (m =? 2) && leapyear then 1 else 0) /\
  DAYS_BEFORE_MONTH m + (if (m >? 2) && leapyear then 1 else 0) + d = n + 1.
Proof.
  intros Hn Hmd.
  pose proof (month_day_table leapyear) as Htab.
  rewrite forallb_forall in Htab.
  specialize (Htab (Z.to_nat n)).
  unfold month_day_ok in Htab.
  rewrite Z2Nat.id in Htab by lia. rewrite Hmd in Htab.
  assert (Hin : In (Z.to_nat n) (seq 0 (if leapyear then 366 else 365)%nat)).
  { apply in_seq. destruct leapyear; lia. }
  specialize (Htab Hin).
  rewrite !andb_true_iff in Htab. lia.
Qed.

Lemma ord2ymd_unfold n0 :
  ord2ymd n0 =
  let n := n0 - 1 in
  let n400 := n / DI400Y in
  let r1 := n mod DI400Y in
  let n100 := r1 / DI100Y in
  let r2 := r1 mod DI100Y in
  let n4 := r2 / DI4Y in
  let r3 := r2 mod DI4Y in
  let n1 := r3 / 365 in
  let r4 := r3 mod 365 in
  let year := n400 * 400 + 1 + n100 * 100 + n4 * 4 + n1 in
  if (n1 =? 4) || (n100 =? 4) then (year - 1, 12, 31)
  else
    let leapyear := (n1 =? 3) && (negb (n4 =? 24) || (n100 =? 3)) in
    (year, fst (month_day r4 leapyear), snd (month_day r4 leapyear)).
Proof.
  unfold ord2ymd, month_day. cbv zeta.
  repeat match goal with |- context [if ?b then _ else _] =>
    destruct b eqn:?; try reflexivity end.
Qed.

Lemma days_in_month_alt y m :
  days_in_month y m =
  DAYS_IN_MONTH m + (if (m =? 2) && is_leap y then 1 else 0).
Proof.
  unfold days_in_month.
  destruct (Z.eqb_spec m 2) as [-> | Hm]; simpl; [destruct (is_leap y) |]; lia.
Qed.

(** The year split of [ord2ymd]: quotients by 400, 100, 4 and 1 years. *)
Lemma year_split n a r1 b r2 c r3 e r4 :
  0 <= n ->
  n = 146097 * a + r1 -> 0 <= r1 < 146097 ->
  r1 = 36524 * b + r2 -> 0 <= r2 < 36524 ->
  r2 = 1461 * c + r3 -> 0 <= r3 < 1461 ->
  r3 = 365 * e + r4 -> 0 <= r4 < 365 ->
  let year := a * 400 + 1 + b * 100 + c * 4 + e in
  0 <= a /\ 0 <= b <= 4 /\ 0 <= c <= 24 /\ 0 <= e <= 4 /\
  (e = 4 \/ b = 4 ->
     r4 = 0 /\ is_leap (year - 1) = true /\
     days_before_year (year - 1) + 366 = n + 1) /\
  (e <> 4 -> b <> 4 ->
     is_leap year = (e =? 3) && (negb (c =? 24) || (b =? 3)) /\
     days_before_year year = n - r4).
Proof.
  intros Hn Ha Hr1 Hb Hr2 Hc Hr3 He Hr4 year.
  assert (0 <= a) by lia. assert (0 <= b <= 4) by lia.
  assert (0 <= c <= 24) by lia. assert (0 <= e <= 4) by lia.
  do 4 (split; [lia |]). split.
  - intros Hsp. assert (r4 = 0) by lia. split; [done |]. split.
    + destruct (is_leap_cases (year - 1)) as [(Hl & _) | (_ & Hno)]; [done |].
      subst year. exfalso. Z.div_mod_to_equations. lia.
    + unfold days_before_year. subst year. Z.div_mod_to_equations. lia.
  - intros He4 Hb4. split.
    + destruct (Z.eqb_spec e 3), (Z.eqb_spec c 24), (Z.eqb_spec b 3); simpl;
        destruct (is_leap_cases year) as [(-> & H4 & H100) | (-> & Hno)];
        try reflexivity; exfalso; subst year; Z.div_mod_to_equations; lia.
    + unfold days_before_year. subst year. Z.div_mod_to_equations. lia.
Qed.

(** [date.fromordinal(n)] names a real calendar day, and [toordinal]
    brings it back. *)
Lemma ord2ymd_spec n0 y m d :
  valid_date n0 -> ord2ymd n0 = (y, m, d) ->
  valid_ymd y m d /\ ymd2ord y m d = n0.
Proof.
  unfold valid_date, MAXORDINAL. intros Hn. rewrite ord2ymd_unfold. cbv zeta.
  unfold DI400Y, DI100Y, DI4Y.
  set (n := n0 - 1).
  pose proof (Z.div_mod n 146097 ltac:(lia)) as Ha.
  pose proof (Z.mod_pos_bound n 146097 ltac:(lia)) as Hr1.
  set (a := n / 146097) in *. set (r1 := n mod 146097) in *.
  pose proof (Z.div_mod r1 36524 ltac:(lia)) as Hb.
  pose proof (Z.mod_pos_bound r1 36524 ltac:(lia)) as Hr2.
  set (b := r1 / 36524) in *. set (r2 := r1 mod 36524) in *.
  pose proof (Z.div_mod r2 1461 ltac:(lia)) as Hc.
  pose proof (Z.mod_pos_bound r2 1461 ltac:(lia)) as Hr3.
  set (c := r2 / 1461) in *. set (r3 := r2 mod 1461) in *.
  pose proof (Z.div_mod r3 365 ltac:(lia)) as He.
  pose proof (Z.mod_pos_bound r3 365 ltac:(lia)) as Hr4.
  set (e := r3 / 365) in *. set (r4 := r3 mod 365) in *.
  destruct (year_split n a r1 b r2 c r3 e r4 ltac:(lia) Ha Hr1 Hb Hr2 Hc Hr3 He Hr4)
    as (Ha0 & Hb4 & Hc24 & He4 & Hspecial & Hregular).
  set (year := a * 400 + 1 + b * 100 + c * 4 + e) in *.
  assert (Hyear : 1 <= year <= 10000) by (subst year; lia).
  destruct ((e =? 4) || (b =? 4)) eqn:Hsp.
  - intros [= <- <- <-].
    assert (Hor : e = 4 \/ b = 4).
    { apply orb_true_iff in Hsp. destruct Hsp as [H | H]; apply Z.eqb_eq in H; lia. }
    destruct (Hspecial Hor) as (Hr40 & Hleap & Hdby).
    assert (1 <= year - 1).
    { pose proof (days_before_year_mono (year - 1) 0) as Hmono.
      unfold days_before_year in Hmono at 2. simpl in Hmono. lia. }
    unfold valid_ymd, ymd2ord, days_before_month, days_in_month. rewrite Hleap.
    simpl. subst n. lia.
  - apply orb_false_iff in Hsp. destruct Hsp as [He4' Hb4'].
    apply Z.eqb_neq in He4', Hb4'.
    destruct (Hregular He4' Hb4') as (Hleap & Hdby).
    set (leapyear := (e =? 3) && (negb (c =? 24) || (b =? 3))) in *.
    destruct (month_day r4 leapyear) as [m' d'] eqn:Hmd. simpl.
    intros [= <- <- <-].
    assert (Hr4' : 0 <= r4 < 365 + (if leapyear then 1 else 0))
      by (destruct leapyear; lia).
    destruct (month_day_spec _ _ _ _ Hr4' Hmd) as (Hm & Hd & Hsum).
    assert (year <= 9999).
    { pose proof (days_before_year_mono 10000 year) as Hmono.
      unfold days_before_year in Hmono at 1. simpl in Hmono. subst n. lia. }
    unfold valid_ymd, ymd2ord, days_before_month.
    rewrite days_in_month_alt, Hleap. subst n. lia.
Qed.

Ltac month_cases m :=
  let H := fresh in
  assert (H : m = 1 \/ m = 2 \/ m = 3 \/ m = 4 \/ m = 5 \/ m = 6 \/ m = 7 \/
              m = 8 \/ m = 9 \/ m = 10 \/ m = 11 \/ m = 12) by lia;
  repeat (destruct H as [-> | H]); [.. | subst m].

Lemma month_bounds y m :
  1 <= m <= 12 ->
  0 <= days_before_month y m /\
  28 <= days_in_month y m <= 31 /\
  days_before_month y m + days_in_month y m
    <= 365 + (if is_leap y then 1 else 0).
Proof.
  intros Hm. unfold days_before_month, days_in_month.
  month_cases m; destruct (is_leap y); simpl; lia.
Qed.

Lemma month_step y m m' :
  1 <= m -> m < m' -> m' <= 12 ->
  days_before_month y m + days_in_month y m <= days_before_month y m'.
Proof.
  intros H1 Hlt H12. unfold days_before_month, days_in_month.
  month_cases m; month_cases m'; try lia; destruct (is_leap y); simpl; lia.
Qed.

Lemma ymd2ord_lt y m d y' m' d' :
  valid_ymd y m d -> valid_ymd y' m' d' ->
  ymd_code (y, m, d) < ymd_code (y', m', d') ->
  ymd2ord y m d < ymd2ord y' m' d'.
Proof.
  intros (Hy & Hm & Hd) (Hy' & Hm' & Hd'). simpl. intros Hlt.
  pose proof (month_bounds y m Hm) as (Hb0 & Hdim & Hend).
  pose proof (month_bounds y' m' Hm') as (Hb0' & Hdim' & Hend').
  unfold ymd2ord.
  destruct (Z.lt_trichotomy y y') as [Hyy | [-> | Hyy]]; [| | lia].
  - pose proof (days_before_year_mono (y + 1) y' ltac:(lia)) as Hmono.
    rewrite days_before_year_succ in Hmono. lia.
  - destruct (Z.lt_trichotomy m m') as [Hmm | [-> | Hmm]]; [| lia | lia].
    pose proof (month_step y' m m' ltac:(lia) Hmm ltac:(lia)). lia.
Qed.

Lemma ord2ymd_code_lt n n' :
  valid_date n -> valid_date n' ->
  n < n' <-> ymd_code (ord2ymd n) < ymd_code (ord2ymd n').
Proof.
  intros Hn Hn'.
  destruct (ord2ymd n) as [[y m] d] eqn:E.
  destruct (ord2ymd n') as [[y' m'] d'] eqn:E'.
  destruct (ord2ymd_spec _ _ _ _ Hn E) as (Hv & Ho).
  destruct (ord2ymd_spec _ _ _ _ Hn' E') as (Hv' & Ho').
  split.
  - intros Hlt.
    destruct (Z.lt_trichotomy (ymd_code (y, m, d)) (ymd_code (y', m', d')))
      as [H | [H | H]]; [done | |].
    + assert (y = y' /\ m = m' /\ d = d') as (-> & -> & ->).
      { destruct Hv as (? & ? & ?), Hv' as (? & ? & ?).
        pose proof (month_bounds y m ltac:(lia)).
        pose proof (month_bounds y' m' ltac:(lia)). simpl in H. lia. }
      lia.
    + pose proof (ymd2ord_lt _ _ _ _ _ _ Hv' Hv H). lia.
  - intros H. pose proof (ymd2ord_lt _ _ _ _ _ _ Hv Hv' H). lia.
Qed.

Lemma digit_compare a b :
  0 <= a <= 9 -> 0 <= b <= 9 -> Ascii.compare (digit a) (digit b) = (a ?= b).
Proof.
  intros Ha Hb. unfold Ascii.compare, digit.
  rewrite !N_ascii_embedding by lia.
  rewrite Z2N.inj_compare by lia. apply Z.add_compare_mono_l.
Qed.

Lemma digits2 n :
  0 <= n <= 99 ->
  0 <= n / 10 mod 10 <= 9 /\ 0 <= n mod 10 <= 9 /\
  n = 10 * (n / 10 mod 10) + n mod 10.
Proof. intros Hn. Z.div_mod_to_equations. lia. Qed.

Lemma digits4 n :
  0 <= n <= 9999 ->
  0 <= n / 1000 mod 10 <= 9 /\ 0 <= n / 100 mod 10 <= 9 /\
  n = 1000 * (n / 1000 mod 10) + 100 * (n / 100 mod 10)
      + 10 * (n / 10 mod 10) + n mod 10.
Proof. intros Hn. Z.div_mod_to_equations. lia. Qed.

Lemma iso_of_ymd_compare y m d y' m' d' :
  0 <= y <= 9999 -> 0 <= m <= 99 -> 0 <= d <= 99 ->
  0 <= y' <= 9999 -> 0 <= m' <= 99 -> 0 <= d' <= 99 ->
  String.compare (iso_of_ymd (y, m, d)) (iso_of_ymd (y', m', d'))
  = (ymd_code (y, m, d) ?= ymd_code (y', m', d')).
Proof.
  intros Hy Hm Hd Hy' Hm' Hd'.
  destruct (digits4 y Hy) as (Hy3 & Hy2 & Ey).
  destruct (digits4 y' Hy') as (Hy3' & Hy2' & Ey').
  assert (Hy1x : 0 <= y / 10 mod 10 <= 9) by (Z.div_mod_to_equations; lia).
  assert (Hy0x : 0 <= y mod 10 <= 9) by (Z.div_mod_to_equations; lia).
  assert (Hy1x' : 0 <= y' / 10 mod 10 <= 9) by (Z.div_mod_to_equations; lia).
  assert (Hy0x' : 0 <= y' mod 10 <= 9) by (Z.div_mod_to_equations; lia).
  destruct (digits2 m Hm) as (Hm1 & Hm0 & Em).
  destruct (digits2 m' Hm') as (Hm1' & Hm0' & Em').
  destruct (digits2 d Hd) as (Hd1 & Hd0 & Ed).
  destruct (digits2 d' Hd') as (Hd1' & Hd0' & Ed').
  unfold iso_of_ymd, fmt04, fmt02, ymd_code.
  cbn [String.compare].
  rewrite !digit_compare by assumption.
  change (Ascii.compare "-" "-") with Eq. cbv iota.
  set (a3 := y / 1000 mod 10) in *. set (a2 := y / 100 mod 10) in *.
  set (a1 := y / 10 mod 10) in *. set (a0 := y mod 10) in *.
  set (b3 := y' / 1000 mod 10) in *. set (b2 := y' / 100 mod 10) in *.
  set (b1 := y' / 10 mod 10) in *. set (b0 := y' mod 10) in *.
  set (p1 := m / 10 mod 10) in *. set (p0 := m mod 10) in *.
  set (q1 := m' / 10 mod 10) in *. set (q0 := m' mod 10) in *.
  set (u1 := d / 10 mod 10) in *. set (u0 := d mod 10) in *.
  set (v1 := d' / 10 mod 10) in *. set (v0 := d' mod 10) in *.
  clearbody a3 a2 a1 a0 b3 b2 b1 b0 p1 p0 q1 q0 u1 u0 v1 v0.
  subst y y' m m' d d'.
  repeat match goal with
  | |- context [match (?a ?= ?b) with _ => _ end] =>
      destruct (Z.compare_spec a b); [subst a | ..]
  end; symmetry;
  first [ apply Z.compare_eq_iff | apply Z.compare_lt_iff | apply Z.compare_gt_iff ];
  lia.
Qed.

(** Text comparison of two ISO dates is the comparison of the dates. *)
Lemma isoformat_compare n n' :
  valid_date n -> valid_date n' ->
  String.compare (isoformat n) (isoformat n') = (n ?= n').
Proof.
  intros Hn Hn'.
  unfold isoformat.
  pose proof (ord2ymd_code_lt n n' Hn Hn') as Hlt.
  pose proof (ord2ymd_code_lt n' n Hn' Hn) as Hgt.
  destruct (ord2ymd n) as [[y m] d] eqn:E.
  destruct (ord2ymd n') as [[y' m'] d'] eqn:E'.
  destruct (ord2ymd_spec _ _ _ _ Hn E) as ((Hy & Hm & Hd) & _).
  destruct (ord2ymd_spec _ _ _ _ Hn' E') as ((Hy' & Hm' & Hd') & _).
  pose proof (month_bounds y m Hm). pose proof (month_bounds y' m' Hm').
  rewrite iso_of_ymd_compare by lia.
  destruct (Z.compare_spec n n') as [-> | Hc | Hc].
  - rewrite E in E'. injection E' as <- <- <-. apply Z.compare_refl.
  - apply Z.compare_lt_iff. by apply Hlt.
  - apply Z.compare_gt_iff. by apply Hgt.
Qed.

Lemma isoformat_leb n n' :
  valid_date n -> valid_date n' ->
  String.leb (isoformat n) (isoformat n') = (n <=? n').
Proof.
  intros Hn Hn'. unfold String.leb, Z.leb.
  by rewrite isoformat_compare.
Qed.

(** Two dates with the same ISO text are the same date: the test
    [last == today] of the scheduler compares dates. *)
Lemma isoformat_inj n n' :
  valid_date n -> valid_date n' -> isoformat n = isoformat n' -> n = n'.
Proof.
  intros Hn Hn' Heq.
  pose proof (isoformat_compare n n' Hn Hn') as Hc.
  rewrite Heq in Hc.
  apply Z.compare_eq_iff. rewrite <- Hc.
  clear. induction (isoformat n') as [| c s IH]; [done |].
  simpl. unfold Ascii.compare. by rewrite N.compare_refl.
Qed.

End CalendarFacts.

(** ** The evaluator *)

Section IsDueFacts.
Context `{DateParser}.
Import Calendar.

Lemma dateparser_parse_ok s d :
  dateparser_parse s = Ok d -> s <> "" /\ valid_date d.
Proof.
  unfold dateparser_parse.
  destruct (String.eqb_spec s "") as [-> | Hne]; [done |].
  destruct (parse_date s) as [d' |]; [| done].
  destruct (valid_dateb d') eqn:Hv; [| done].
  intros [= <-]. split; [done |].
  unfold valid_dateb in Hv. unfold valid_date. lia.
Qed.

Lemma truthy_JStr s : truthy (JStr s) = true <-> s <> "".
Proof. simpl. destruct (String.eqb_spec s ""); naive_solver. Qed.

Lemma dict_get_lookup (e : entry) k v : e !! k = Some v -> dict_get e k = v.
Proof. unfold dict_get. by intros ->. Qed.

Lemma dict_get_JStr (e : entry) k s :
  dict_get e k = JStr s -> e !! k = Some (JStr s).
Proof. unfold dict_get. destruct (e !! k); simpl; naive_solver. Qed.

Lemma dict_get_missing (e : entry) k : e !! k = None -> dict_get e k = JNull.
Proof. unfold dict_get. by intros ->. Qed.

Lemma py_or_truthy_l a b : truthy a = true -> py_or a b = a.
Proof. unfold py_or. by intros ->. Qed.

Lemma py_or_falsy_l a b : truthy a = false -> py_or a b = b.
Proof. unfold py_or. by intros ->. Qed.

Lemma parse_field_ok v d :
  parse_field v = Ok d -> exists s, v = JStr s /\ dateparser_parse s = Ok d.
Proof. destruct v; simpl; [done | eauto]. Qed.

Lemma field_parses_truthy (e : entry) k s d :
  e !! k = Some (JStr s) -> dateparser_parse s = Ok d ->
  truthy (dict_get e k) = true /\ parse_field (dict_get e k) = Ok d.
Proof.
  intros Hk Hp. rewrite (dict_get_lookup _ _ _ Hk). split; [| done].
  apply truthy_JStr. by apply dateparser_parse_ok in Hp as [? _].
Qed.

Lemma field_bad_get (e : entry) k :
  field_bad e k ->
  truthy (dict_get e k) = false \/
  exists exn, parse_field (dict_get e k) = Raise exn.
Proof.
  intros [Hk | [Hk | (s & Hk & Hp)]].
  - left. by rewrite dict_get_missing.
  - left. by rewrite (dict_get_lookup _ _ _ Hk).
  - right. rewrite (dict_get_lookup _ _ _ Hk). simpl.
    destruct (dateparser_parse s) as [d | exn] eqn:E; [by destruct (Hp d) | eauto].
Qed.

Lemma no_completion_completed e : no_completion e -> completed e = false.
Proof.
  intros (H1 & H2 & H3). unfold completed.
  set (comp := py_or _ _).
  destruct (parse_field comp) as [d |] eqn:Hp; [| by rewrite andb_false_r].
  exfalso. apply parse_field_ok in Hp as (s & Hs & Hp).
  assert (Hcases : comp = dict_get e "completedDate" \/ comp = dict_get e "date"
                   \/ comp = dict_get e "completed_date").
  { unfold comp, py_or. repeat case_match; auto. }
  destruct Hcases as [Hc | [Hc | Hc]]; rewrite Hc in Hs;
    apply dict_get_JStr in Hs; [apply H1 | apply H2 | apply H3];
    by exists s, d.
Qed.

Lemma timedelta_ok n : -999999999 <= n <= 999999999 -> timedelta n = Ok n.
Proof.
  intros Hn. unfold timedelta.
  destruct (Z.leb_spec (-999999999) n), (Z.leb_spec n 999999999); simpl;
    first [reflexivity | lia].
Qed.

Lemma date_add_ok d n : valid_date (d + n) -> date_add d n = Ok (d + n).
Proof.
  unfold valid_date, date_add. intros Hv.
  destruct (Z.ltb_spec 0 (d + n)), (Z.leb_spec (d + n) MAXORDINAL); simpl;
    first [reflexivity | lia].
Qed.

Lemma date_sub_ok d n : valid_date (d - n) -> date_sub d n = Ok (d - n).
Proof. intros Hv. unfold date_sub. by rewrite date_add_ok. Qed.

(** What [is_due] computes once the scheduled date [sd] has been read,
    the entry is not completed and the window ends are dates. *)
Lemma is_due_window cfg today e s sd :
  py_or (dict_get e "scheduledDate") (dict_get e "scheduled_date") = JStr s ->
  dateparser_parse s = Ok sd ->
  completed e = false ->
  valid_date (sd - REMIND_START_DAYS_BEFORE cfg) ->
  valid_date (sd + REMIND_END_DAYS_AFTER cfg) ->
  let start_date := sd - REMIND_START_DAYS_BEFORE cfg in
  let end_date := sd + REMIND_END_DAYS_AFTER cfg in
  is_due cfg today e =
  Ok ((start_date <=? today) && (today <=? end_date) &&
      ((REMIND_REPEAT_DAYS cfg <=? 0) ||
       ((today - start_date) mod REMIND_REPEAT_DAYS cfg =? 0))).
Proof.
  intros Hs Hp Hc Hst Hen start_date end_date.
  destruct (dateparser_parse_ok _ _ Hp) as [Hne Hsd].
  unfold is_due. fold (completed e). rewrite Hs, Hc.
  apply truthy_JStr in Hne. rewrite Hne. cbn [negb parse_field]. rewrite Hp.
  rewrite !timedelta_ok by (unfold valid_date, MAXORDINAL in *; lia). step.
  rewrite date_sub_ok, date_add_ok by done. step.
  fold start_date end_date.
  destruct (Z.ltb_spec today start_date), (Z.gtb_spec today end_date),
    (Z.leb_spec start_date today), (Z.leb_spec today end_date),
    (Z.leb_spec (REMIND_REPEAT_DAYS cfg) 0); simpl; try reflexivity; lia.
Qed.

Lemma completed_by_completedDate e s d :
  e !! "completedDate" = Some (JStr s) -> dateparser_parse s = Ok d ->
  completed e = true.
Proof.
  intros Hk Hp. destruct (field_parses_truthy _ _ _ _ Hk Hp) as [Ht Hpf].
  unfold completed. rewrite !(py_or_truthy_l (dict_get e "completedDate")) by
    (by rewrite ?py_or_truthy_l).
  by rewrite Ht, Hpf.
Qed.

Lemma completed_by_date e s d :
  e !! "completedDate" = None -> e !! "date" = Some (JStr s) ->
  dateparser_parse s = Ok d -> completed e = true.
Proof.
  intros Hcd Hk Hp. destruct (field_parses_truthy _ _ _ _ Hk Hp) as [Ht Hpf].
  unfold completed. rewrite (dict_get_missing _ _ Hcd).
  rewrite (py_or_falsy_l JNull) by done.
  rewrite py_or_truthy_l by done. by rewrite Ht, Hpf.
Qed.

(** A completed entry is not due, whatever else it holds. *)
Lemma is_due_completed cfg today e :
  completed e = true -> is_due cfg today e = Ok false.
Proof.
  intros Hc. unfold is_due. fold (completed e). rewrite Hc.
  destruct (negb _); [done |]. by destruct (parse_field _).
Qed.

(** C4. An entry whose [completedDate] is present and parses as a date is
    never due: [is_due] returns [False] for every configuration and every
    day, whatever the scheduled date and the other fields are. *)
Theorem completed_never_due cfg today e s d :
  e !! "completedDate" = Some (JStr s) ->
  dateparser_parse s = Ok d ->
  is_due cfg today e = Ok false.
Proof.
  intros Hk Hp. apply is_due_completed. by eapply completed_by_completedDate.
Qed.

(** C9. The generic [date] field is read as a completion marker: an entry
    with neither [completedDate] nor [completed_date] but with a non-empty
    [date] that parses is never due, on any day and under any
    configuration, so also on days inside the window and on the cadence. *)
Theorem date_field_marks_completion cfg today e s d :
  e !! "completedDate" = None ->
  e !! "completed_date" = None ->
  e !! "date" = Some (JStr s) ->
  dateparser_parse s = Ok d ->
  is_due cfg today e = Ok false.
Proof.
  intros Hcd _ Hk Hp. apply is_due_completed. by eapply completed_by_date.
Qed.

(** C3. Daily policy: with [REMIND_REPEAT_DAYS <= 0], an entry with a
    parsable [scheduledDate] and no completion, whose window ends
    [start] and [end] are both dates of the calendar (0001-01-01 to
    9999-12-31), is due exactly on the days of the closed window
    [start .. end], and [is_due] returns [False] on every other day; with
    all three settings 0 it is due on the scheduled date and on no other
    day. *)
Theorem daily_window cfg today e s sd :
  e !! "scheduledDate" = Some (JStr s) ->
  dateparser_parse s = Ok sd ->
  no_completion e ->
  REMIND_REPEAT_DAYS cfg <= 0 ->
  valid_date (sd - REMIND_START_DAYS_BEFORE cfg) ->
  valid_date (sd + REMIND_END_DAYS_AFTER cfg) ->
  let start_date := sd - REMIND_START_DAYS_BEFORE cfg in
  let end_date := sd + REMIND_END_DAYS_AFTER cfg in
  (is_due cfg today e = Ok true <-> start_date <= today <= end_date) /\
  (~ (start_date <= today <= end_date) -> is_due cfg today e = Ok false) /\
  (REMIND_START_DAYS_BEFORE cfg = 0 -> REMIND_END_DAYS_AFTER cfg = 0 ->
   REMIND_REPEAT_DAYS cfg = 0 ->
   (is_due cfg today e = Ok true <-> today = sd) /\
   (today <> sd -> is_due cfg today e = Ok false)).
Proof.
  intros Hk Hp Hnc Hrep Hst Hen start_date end_date.
  destruct (field_parses_truthy _ _ _ _ Hk Hp) as [Ht _].
  assert (Hs : py_or (dict_get e "scheduledDate") (dict_get e "scheduled_date")
               = JStr s).
  { rewrite py_or_truthy_l by done. by apply dict_get_lookup. }
  rewrite (is_due_window cfg today e s sd Hs Hp
             (no_completion_completed _ Hnc) Hst Hen).
  fold start_date end_date.
  replace (REMIND_REPEAT_DAYS cfg <=? 0) with true by (symmetry; by apply Z.leb_le).
  rewrite orb_true_l, andb_true_r.
  assert (Hiff : (start_date <=? today) && (today <=? end_date) = true
                 <-> start_date <= today <= end_date).
  { by rewrite andb_true_iff, !Z.leb_le. }
  assert (Hdue : Ok ((start_date <=? today) && (today <=? end_date)) = Ok true
                 <-> start_date <= today <= end_date).
  { rewrite <- Hiff. split; [by intros [= ->] | by intros ->]. }
  assert (Hnot : ~ (start_date <= today <= end_date) ->
                 Ok ((start_date <=? today) && (today <=? end_date)) = Ok false).
  { intros Hno. f_equal. apply not_true_is_false. by rewrite Hiff. }
  split; [exact Hdue |]. split; [exact Hnot |].
  intros HA HB _. subst start_date end_date. rewrite HA, HB in *.
  split.
  - rewrite Hdue. lia.
  - intros Hne. apply Hnot. lia.
Qed.

(** C2. Repeat cadence: with [REMIND_REPEAT_DAYS = k > 0], an entry with a
    parsable [scheduledDate] and no completion, whose window ends
    [start] and [end] are both dates of the calendar (0001-01-01 to
    9999-12-31), is due exactly on the days [start + i * k]
    ([i = 0, 1, 2, ...]) that lie in [start .. end], and [is_due] returns
    [False] on every other day. Scheduled on 2024-06-10 with 3 days
    before, 2 after and a repeat of 2, it is due on 2024-06-07,
    2024-06-09 and 2024-06-11 only. *)
Theorem repeat_cadence cfg today e s sd :
  e !! "scheduledDate" = Some (JStr s) ->
  dateparser_parse s = Ok sd ->
  no_completion e ->
  0 < REMIND_REPEAT_DAYS cfg ->
  valid_date (sd - REMIND_START_DAYS_BEFORE cfg) ->
  valid_date (sd + REMIND_END_DAYS_AFTER cfg) ->
  let start_date := sd - REMIND_START_DAYS_BEFORE cfg in
  let end_date := sd + REMIND_END_DAYS_AFTER cfg in
  let k := REMIND_REPEAT_DAYS cfg in
  let on_cadence :=
    start_date <= today <= end_date /\
    exists i, 0 <= i /\ today = start_date + i * k in
  (is_due cfg today e = Ok true <-> on_cadence) /\
  (~ on_cadence -> is_due cfg today e = Ok false) /\
  (sd = date_of 2024 6 10 -> REMIND_START_DAYS_BEFORE cfg = 3 ->
   REMIND_END_DAYS_AFTER cfg = 2 -> k = 2 ->
   (is_due cfg today e = Ok true <->
    today = date_of 2024 6 7 \/ today = date_of 2024 6 9 \/
    today = date_of 2024 6 11)).
Proof.
  intros Hk Hp Hnc Hrep Hst Hen start_date end_date k on_cadence.
  destruct (field_parses_truthy _ _ _ _ Hk Hp) as [Ht _].
  assert (Hs : py_or (dict_get e "scheduledDate") (dict_get e "scheduled_date")
               = JStr s).
  { rewrite py_or_truthy_l by done. by apply dict_get_lookup. }
  rewrite (is_due_window cfg today e s sd Hs Hp
             (no_completion_completed _ Hnc) Hst Hen).
  fold start_date end_date k.
  assert (Hcad : (today - start_date) mod k = 0 <->
                 exists i, today = start_date + i * k).
  { rewrite Z.mod_divide by lia. unfold Z.divide.
    split; intros [i Hi]; exists i; lia. }
  assert (Hiff : (start_date <=? today) && (today <=? end_date) &&
                 ((k <=? 0) || ((today - start_date) mod k =? 0)) = true
                 <-> on_cadence).
  { unfold on_cadence.
    rewrite !andb_true_iff, orb_true_iff, !Z.leb_le, Z.eqb_eq, Hcad.
    split.
    - intros [[? ?] [? | [i Hi]]]; [lia |].
      split; [lia |]. exists i. split; [nia | done].
    - intros [[? ?] [i [? Hi]]]. eauto. }
  split; [| split].
  - rewrite <- Hiff. split; [by intros [= ->] | by intros ->].
  - intros Hno. f_equal. apply not_true_is_false. by rewrite Hiff.
  - intros Hsd HA HB Hk2.
    transitivity on_cadence.
    { rewrite <- Hiff. split; [by intros [= ->] | by intros ->]. }
    unfold on_cadence. subst start_date end_date. rewrite Hsd, HA, HB, Hk2.
    change (date_of 2024 6 10) with 739047. change (date_of 2024 6 7) with 739044.
    change (date_of 2024 6 9) with 739046. change (date_of 2024 6 11) with 739048.
    split.
    + intros [? [i [? ?]]]. lia.
    + intros [-> | [-> | ->]]; (split; [lia |]);
        [exists 0 | exists 1 | exists 2]; lia.
Qed.

(** C8, as amended. Fail-closed guard: [is_due] returns [False], without
    raising, whenever the scheduled date it reads is missing, empty or
    unparsable. It reads [scheduledDate], and [scheduled_date] in its place
    when [scheduledDate] is missing, [null] or empty: so the entry is not
    due when [scheduledDate] is a non-empty string that fails to parse, and
    when [scheduledDate] and [scheduled_date] are both missing, empty or
    unparsable. *)
Theorem fail_closed cfg today e :
  field_bad e "scheduledDate" ->
  (exists s, e !! "scheduledDate" = Some (JStr s) /\ s <> "") \/
    field_bad e "scheduled_date" ->
  is_due cfg today e = Ok false.
Proof.
  intros Hbad Halt. unfold is_due.
  set (sched := py_or _ _).
  assert (Hsched : truthy sched = false \/
                   exists exn, parse_field sched = Raise exn).
  { destruct (truthy (dict_get e "scheduledDate")) eqn:Ht.
    - unfold sched. rewrite py_or_truthy_l by done.
      destruct (field_bad_get _ _ Hbad) as [Hf | Hr]; [congruence | by right].
    - unfold sched. rewrite py_or_falsy_l by done.
      destruct Halt as [(s & Hk & Hne) | Hbad'].
      + rewrite (dict_get_lookup _ _ _ Hk) in Ht.
        apply truthy_JStr in Hne. congruence.
      + apply field_bad_get, Hbad'. }
  destruct Hsched as [-> | [exn Hr]]; [done |].
  destruct (negb _); [done |]. by rewrite Hr.
Qed.

End IsDueFacts.

(** ** The ledger *)

Section LedgerFacts.
Import Calendar CalendarFacts.

Ltac date_lia := unfold valid_date, MAXORDINAL in *; lia.

Lemma get_last_notified_None t k :
  get_last_notified t k = None <-> k ∉ (fst <$> t).
Proof.
  induction t as [| [k0 v0] t IH]; simpl.
  - split; [intros _; apply not_elem_of_nil | done].
  - rewrite not_elem_of_cons.
    destruct (String.eqb_spec k0 k) as [-> | Hne].
    + split; [done | by intros [? _]].
    + rewrite IH. split; [by intros ? | by intros [_ ?]].
Qed.

Lemma get_mark_eq t k v : get_last_notified (mark_notified t k v) k = Some v.
Proof.
  induction t as [| [k0 v0] t IH]; simpl.
  - by rewrite String.eqb_refl.
  - destruct (String.eqb_spec k0 k) as [-> | Hne]; simpl.
    + by rewrite String.eqb_refl.
    + by destruct (String.eqb_spec k0 k).
Qed.

Lemma get_mark_ne t k k' v :
  k <> k' -> get_last_notified (mark_notified t k v) k' = get_last_notified t k'.
Proof.
  intros Hne. induction t as [| [k0 v0] t IH]; simpl.
  - by destruct (String.eqb_spec k k').
  - destruct (String.eqb_spec k0 k) as [-> | Hne0]; simpl.
    + by destruct (String.eqb_spec k k').
    + by rewrite IH.
Qed.

(** The ids after an upsert: unchanged when the id was there, one more
    at the end when it was not. *)
Lemma mark_notified_keys t k v :
  fst <$> mark_notified t k v =
  if decide (k ∈ (fst <$> t)) then fst <$> t else ((fst <$> t) ++ [k])%list.
Proof.
  induction t as [| [k0 v0] t IH].
  - rewrite decide_False by apply not_elem_of_nil. reflexivity.
  - cbn [mark_notified]. destruct (String.eqb_spec k0 k) as [-> | Hne].
    + rewrite decide_True by (rewrite fmap_cons; apply list_elem_of_here).
      reflexivity.
    + rewrite (fmap_cons _ _ (mark_notified _ _ _)), IH.
      destruct (decide (k ∈ fst <$> t)) as [Hin | Hnin].
      * rewrite decide_True by (rewrite fmap_cons; by apply list_elem_of_further).
        reflexivity.
      * rewrite decide_False; [reflexivity |].
        rewrite fmap_cons, not_elem_of_cons. split; [cbn; congruence | done].
Qed.

Lemma wf_mark_notified t k v : wf_table t -> wf_table (mark_notified t k v).
Proof.
  unfold wf_table. intros Hwf. rewrite mark_notified_keys.
  case_decide; [done |].
  apply NoDup_app. split; [done |]. split; [| apply NoDup_singleton].
  intros x Hx Hx'. apply list_elem_of_singleton in Hx'. by subst.
Qed.

Lemma iso_mark_notified t k d :
  valid_date d -> iso_table t -> iso_table (mark_notified t k (isoformat d)).
Proof.
  intros Hd. induction t as [| [k0 v0] t IH]; simpl; intros Hiso k' v' Hin.
  - apply list_elem_of_singleton in Hin as [= -> ->]. eauto.
  - destruct (String.eqb_spec k0 k) as [-> | Hne].
    + apply elem_of_cons in Hin as [[= -> ->] | Hin]; [eauto |].
      eapply Hiso. by apply list_elem_of_further.
    + apply elem_of_cons in Hin as [[= -> ->] | Hin].
      * eapply Hiso. apply list_elem_of_here.
      * eapply IH; [| done]. intros k1 v1 H1. eapply Hiso.
        by apply list_elem_of_further.
Qed.

Lemma rows_of_absent t k : k ∉ (fst <$> t) -> rows_of k t = [].
Proof.
  induction t as [| [k0 v0] t IH]; simpl; [done |].
  rewrite not_elem_of_cons. intros [Hne Hnin].
  destruct (String.eqb_spec k0 k); [congruence | auto].
Qed.

Lemma rows_of_mark t k v :
  wf_table t -> rows_of k (mark_notified t k v) = [(k, v)].
Proof.
  unfold wf_table.
  induction t as [| [k0 v0] t IH]; simpl; intros Hwf.
  - by rewrite String.eqb_refl.
  - apply NoDup_cons in Hwf as [Hnin Hwf].
    destruct (String.eqb_spec k0 k) as [-> | Hne]; simpl.
    + rewrite String.eqb_refl. f_equal. by apply rows_of_absent.
    + destruct (String.eqb_spec k0 k); [congruence | auto].
Qed.

Lemma elem_of_sql_delete cond t r :
  r ∈ sql_delete cond t <-> r ∈ t /\ cond r = false.
Proof.
  unfold sql_delete. rewrite !list_elem_of_In, filter_In, negb_true_iff. done.
Qed.

Lemma sql_delete_sublist cond t : sublist (sql_delete cond t) t.
Proof.
  induction t as [| r t IH]; simpl; [constructor |].
  destruct (cond r); simpl; by constructor.
Qed.

Lemma wf_sql_delete cond t : wf_table t -> wf_table (sql_delete cond t).
Proof.
  unfold wf_table. intros Hwf. eapply sublist_NoDup; [exact Hwf |].
  apply fmap_sublist, sql_delete_sublist.
Qed.

Lemma iso_sql_delete cond t : iso_table t -> iso_table (sql_delete cond t).
Proof.
  intros Hiso k v Hin. apply elem_of_sql_delete in Hin as [Hin _]. eauto.
Qed.

Lemma sql_delete_length cond t :
  (length (sql_delete cond t) <= length t)%nat.
Proof. apply sublist_length, sql_delete_sublist. Qed.

Lemma sql_delete_key_length t k :
  wf_table t ->
  (length t <= length (sql_delete (fun r => (fst r =? k)%string) t) + 1)%nat.
Proof.
  unfold wf_table.
  induction t as [| [k0 v0] t IH]; simpl; intros Hwf; [lia |].
  apply NoDup_cons in Hwf as [Hnin Hwf].
  destruct (String.eqb_spec k0 k) as [-> | Hne]; simpl.
  - assert (Hid : sql_delete (fun r => (fst r =? k)%string) t = t).
    { clear -Hnin. induction t as [| [k1 v1] t IH]; simpl; [done |].
      simpl in Hnin. rewrite not_elem_of_cons in Hnin. destruct Hnin as [Hne Hnin].
      destruct (String.eqb_spec k1 k); [congruence |]. simpl. f_equal. auto. }
    rewrite Hid. lia.
  - specialize (IH Hwf). lia.
Qed.

Lemma get_sql_delete_key t k :
  get_last_notified (sql_delete (fun r => (fst r =? k)%string) t) k = None.
Proof.
  apply get_last_notified_None. intros Hin.
  apply list_elem_of_fmap in Hin as ([k' v] & -> & Hin).
  apply elem_of_sql_delete in Hin as [_ Hc]. simpl in Hc.
  by rewrite String.eqb_refl in Hc.
Qed.

Lemma get_sql_delete_other t k k' :
  k <> k' ->
  get_last_notified (sql_delete (fun r => (fst r =? k)%string) t) k'
  = get_last_notified t k'.
Proof.
  intros Hne. induction t as [| [k0 v0] t IH]; simpl; [done |].
  destruct (String.eqb_spec k0 k) as [-> | Hne0]; simpl.
  - destruct (String.eqb_spec k k'); [congruence | done].
  - by rewrite IH.
Qed.

(** The ledger invariant holds of the empty table that [init_db] creates
    and is kept by reset and by pruning. *)
Lemma ledger_invariant_init : wf_table [] /\ iso_table [].
Proof.
  split; [apply NoDup_nil_2 |]. intros k v Hin. by apply elem_of_nil in Hin.
Qed.

Lemma ledger_invariant_reset t k :
  wf_table t -> iso_table t ->
  wf_table (snd (reset_reminder t k)) /\ iso_table (snd (reset_reminder t k)).
Proof.
  intros Hwf Hiso. unfold reset_reminder.
  destruct (k =? "all")%string; simpl.
  - apply ledger_invariant_init.
  - split; [by apply wf_sql_delete | by apply iso_sql_delete].
Qed.

Lemma ledger_invariant_prune today t days :
  wf_table t -> iso_table t ->
  wf_table (snd (prune_old_entries today t days)) /\
  iso_table (snd (prune_old_entries today t days)).
Proof.
  intros Hwf Hiso. unfold prune_old_entries.
  destruct (days <=? 0); [done |].
  destruct (_ ← timedelta days; _); [| done]. simpl.
  split; [by apply wf_sql_delete | by apply iso_sql_delete].
Qed.

(** C6. Ledger round trips: after [mark_notified(k, d)] the lookup of [k]
    returns [d], whether or not [k] had a row, the primary key still
    holds and [k] has exactly one row; after [reset_reminder(k)], which
    reports success, the lookup of [k] returns [None] and raises
    nothing. *)
Theorem ledger_roundtrip t k d :
  wf_table t ->
  let t1 := mark_notified t k (isoformat d) in
  get_last_notified t1 k = Some (isoformat d) /\
  wf_table t1 /\
  rows_of k t1 = [(k, isoformat d)] /\
  fst (reset_reminder t k) = true /\
  get_last_notified (snd (reset_reminder t k)) k = None.
Proof.
  intros Hwf t1. subst t1.
  split; [apply get_mark_eq |].
  split; [by apply wf_mark_notified |].
  split; [by apply rows_of_mark |].
  unfold reset_reminder.
  destruct (String.eqb_spec k "all"); simpl; [done |].
  split; [done | apply get_sql_delete_key].
Qed.

(** C10. The argument ["all"] is reserved: [reset_reminder] with ["all"]
    empties the ledger, so a row whose id is the string ["all"] cannot be
    removed alone. With any other argument it removes the rows of that id
    (at most one, under the primary key) and keeps every other row as it
    was, in order. *)
Theorem reset_all_is_reserved t k :
  reset_reminder t "all" = (true, []) /\
  (k <> "all" ->
   let t' := snd (reset_reminder t k) in
   fst (reset_reminder t k) = true /\
   sublist t' t /\
   (forall r, r ∈ t' <-> r ∈ t /\ fst r <> k) /\
   (forall k', k' <> k -> get_last_notified t' k' = get_last_notified t k') /\
   (wf_table t -> (length t <= length t' + 1)%nat)).
Proof.
  split; [reflexivity |].
  intros Hne. unfold reset_reminder.
  destruct (String.eqb_spec k "all"); [done |]. simpl.
  split; [done |].
  split; [apply sql_delete_sublist |].
  split; [| split].
  - intros r. rewrite elem_of_sql_delete.
    destruct (String.eqb_spec (fst r) k) as [Heq | Hneq].
    + split; [by intros [_ ?] | by intros [_ ?]].
    + split; [by intros [? _] | by intros [? _]].
  - intros k' Hk'. by apply get_sql_delete_other.
  - apply sql_delete_key_length.
Qed.

(** C5. Pruning, on a ledger of ISO dates: with [days <= 0],
    [prune_old_entries] returns 0 and leaves the ledger as it is.
    Otherwise, with [cutoff = today - days], the rows that remain are rows
    of the ledger, unchanged and in order; a row stays exactly when its
    [last_notified] date is after the cutoff, so the rows removed are
    those dated on or before it; and the count returned is the number of
    rows removed. *)
Theorem prune_exact today days t n t' :
  valid_date today ->
  iso_table t ->
  prune_old_entries today t days = (n, t') ->
  (days <= 0 -> n = 0 /\ t' = t) /\
  (0 < days ->
   sublist t' t /\
   (forall k d, valid_date d -> (k, isoformat d) ∈ t ->
      ((k, isoformat d) ∈ t' <-> today - days < d)) /\
   n = Z.of_nat (length t) - Z.of_nat (length t')).
Proof.
  intros Htoday Hiso. unfold prune_old_entries.
  destruct (Z.leb_spec days 0) as [Hle | Hgt].
  { intros [= <- <-]. split; [done | lia]. }
  intros Hrun. split; [lia | intros _]. revert Hrun.
  unfold timedelta, date_sub, date_add.
  destruct (Z.leb_spec (-999999999) days), (Z.leb_spec days 999999999);
    try lia; simpl; step.
  - destruct (Z.ltb_spec 0 (today + - days)),
      (Z.leb_spec (today + - days) MAXORDINAL); simpl; intros [= <- <-].
    + assert (Hv : valid_date (today + - days)) by date_lia.
      split; [apply sql_delete_sublist |]. split.
      * intros k d Hd Hin. rewrite elem_of_sql_delete. simpl.
        rewrite isoformat_leb by done.
        destruct (Z.leb_spec d (today + - days)).
        -- split; [by intros [_ ?] | lia].
        -- split; [lia | done].
      * pose proof (sql_delete_length
          (fun r => (snd r <=? isoformat (today + - days))%string) t). lia.
    + date_lia.
    + split; [done |]. split; [| lia].
      intros k d Hd Hin. split; [date_lia | done].
    + date_lia.
  - intros [= <- <-]. split; [done |]. split; [| lia].
    intros k d Hd Hin. split; [date_lia | done].
Qed.

End LedgerFacts.

(** ** The scheduler *)

Section SchedulerFacts.
Context `{DateParser}.
Import Calendar.

Lemma scan_cons_inv cfg today t clock e es ns :
  scan cfg today t clock (e :: es) = Ok ns ->
  exists eid due ns',
    entry_key e = Ok eid /\ is_due cfg (clock O) e = Ok due /\
    scan cfg today t (fun i => clock (S i)) es = Ok ns' /\
    ns = if negb due then ns'
         else if bool_decide (get_last_notified t eid = Some today) then ns'
         else (eid, e) :: ns'.
Proof.
  cbn [scan]. step.
  destruct (entry_key e) as [eid |]; [| done].
  destruct (is_due cfg (clock O) e) as [due |]; [| done].
  destruct (scan cfg today t _ es) as [ns' |]; [| done].
  intros Hns. exists eid, due, ns'. repeat split.
  destruct (negb due); [congruence |].
  destruct (bool_decide _); congruence.
Qed.

(** Every pair of [to_notify] comes from a due entry of the batch, under
    its own key, and the ledger did not hold today's date for that key. *)
Lemma scan_sound cfg today t clock es ns k e :
  scan cfg today t clock es = Ok ns -> (k, e) ∈ ns ->
  e ∈ es /\ entry_key e = Ok k /\
  (exists i, is_due cfg (clock i) e = Ok true) /\
  get_last_notified t k <> Some today.
Proof.
  revert clock ns. induction es as [| e0 es IH]; intros clock ns Hscan Hin.
  - injection Hscan as <-. by apply elem_of_nil in Hin.
  - apply scan_cons_inv in Hscan
      as (eid & due & ns' & Hkey & Hdue & Hrest & ->).
    assert (Htail : (k, e) ∈ ns' ->
      e ∈ e0 :: es /\ entry_key e = Ok k /\
      (exists i, is_due cfg (clock i) e = Ok true) /\
      get_last_notified t k <> Some today).
    { intros Hin'. destruct (IH _ _ Hrest Hin') as (? & ? & [i ?] & ?).
      split; [by apply list_elem_of_further |]. split; [done |].
      split; [by exists (S i) | done]. }
    destruct due; simpl in Hin; [| auto].
    case_bool_decide as Hlast; [auto |].
    apply elem_of_cons in Hin as [[= -> ->] | Hin]; [| auto].
    split; [apply list_elem_of_here |]. split; [done |].
    split; [by exists O | done].
Qed.

Lemma get_commit today ns t k :
  get_last_notified (commit today ns t) k =
  if decide (k ∈ (fst <$> ns)) then Some today else get_last_notified t k.
Proof.
  revert t. induction ns as [| [k0 e0] ns IH]; intros t.
  - rewrite decide_False by apply not_elem_of_nil. reflexivity.
  - cbn [commit]. rewrite IH, fmap_cons. cbn [fst].
    destruct (decide (k ∈ fst <$> ns)) as [Hin | Hnin].
    + rewrite decide_True by (by apply list_elem_of_further). reflexivity.
    + destruct (decide (k0 = k)) as [-> | Hne].
      * rewrite decide_True by apply list_elem_of_here. apply get_mark_eq.
      * rewrite decide_False by (rewrite not_elem_of_cons; naive_solver).
        by apply get_mark_ne.
Qed.

Lemma wf_commit today ns t : wf_table t -> wf_table (commit today ns t).
Proof.
  revert t. induction ns as [| [k0 e0] ns IH]; intros t Hwf; [done |].
  cbn [commit]. by apply IH, wf_mark_notified.
Qed.

Lemma iso_commit today ns t :
  valid_date today -> iso_table t -> iso_table (commit (isoformat today) ns t).
Proof.
  intros Htoday. revert t.
  induction ns as [| [k0 e0] ns IH]; intros t Hiso; [done |].
  cbn [commit]. by apply IH, iso_mark_notified.
Qed.

(** Scanning again, with the same clock, a ledger that holds today's
    date for every key the first scan met with today's date or put in
    [to_notify]. *)
Lemma scan_again cfg today t t' clock es ns :
  scan cfg today t clock es = Ok ns ->
  (forall k, get_last_notified t k = Some today ->
             get_last_notified t' k = Some today) ->
  (forall k e, (k, e) ∈ ns -> get_last_notified t' k = Some today) ->
  scan cfg today t' clock es = Ok [].
Proof.
  revert clock ns. induction es as [| e0 es IH]; intros clock ns Hscan Hold Hnew.
  - reflexivity.
  - apply scan_cons_inv in Hscan
      as (eid & due & ns' & Hkey & Hdue & Hrest & ->).
    cbn [scan]. rewrite Hkey, Hdue. step.
    assert (Hns' : forall k e, (k, e) ∈ ns' ->
                               get_last_notified t' k = Some today).
    { intros k e Hin. apply (Hnew k e).
      destruct due; simpl; [| done].
      case_bool_decide; [done | by apply list_elem_of_further]. }
    rewrite (IH _ _ Hrest Hold Hns').
    destruct due; simpl; [| done].
    rewrite bool_decide_eq_true_2; [done |].
    destruct (decide (get_last_notified t eid = Some today)) as [Hl | Hl].
    + by apply Hold.
    + apply (Hnew eid e0). simpl. rewrite bool_decide_eq_false_2 by done.
      apply list_elem_of_here.
Qed.

Lemma filter_and_notify_inv cfg today clock t es ns t1 :
  filter_and_notify cfg today clock t es = Ok (ns, t1) ->
  scan cfg (isoformat today) t clock es = Ok ns /\
  t1 = commit (isoformat today) ns t.
Proof.
  unfold filter_and_notify. step.
  destruct (scan cfg (isoformat today) t clock es) as [ns0 |]; [| done].
  destruct ns0; intros [= <- <-]; done.
Qed.

(** A run of the scheduler keeps the ledger invariant. *)
Lemma ledger_invariant_run cfg today clock t es ns t1 :
  valid_date today -> wf_table t -> iso_table t ->
  filter_and_notify cfg today clock t es = Ok (ns, t1) ->
  wf_table t1 /\ iso_table t1.
Proof.
  intros Htoday Hwf Hiso Hrun.
  apply filter_and_notify_inv in Hrun as [_ ->].
  split; [by apply wf_commit | by apply iso_commit].
Qed.

(** C1. At most one notification per entry and day. An entry whose key
    the ledger holds with today's date is left out of the notify set,
    due or not. Every key of the notify set holds today's date once the
    run has written the ledger, so a second run on the same day, on any
    batch, notifies none of the keys notified by the first; run again on
    the same batch with the same clock readings, the scheduler notifies
    nothing and leaves the ledger as it is. *)
Theorem dedup_once_per_day cfg today clock t es ns t1 :
  filter_and_notify cfg today clock t es = Ok (ns, t1) ->
  (forall k e, get_last_notified t k = Some (isoformat today) -> (k, e) ∉ ns) /\
  (forall k e, (k, e) ∈ ns ->
     get_last_notified t1 k = Some (isoformat today)) /\
  (forall clock' es' ns' t2,
     filter_and_notify cfg today clock' t1 es' = Ok (ns', t2) ->
     forall k e e', (k, e) ∈ ns -> (k, e') ∉ ns') /\
  filter_and_notify cfg today clock t1 es = Ok ([], t1).
Proof.
  intros Hrun. apply filter_and_notify_inv in Hrun as [Hscan ->].
  assert (Hnew : forall k e, (k, e) ∈ ns ->
    get_last_notified (commit (isoformat today) ns t) k = Some (isoformat today)).
  { intros k e Hin. rewrite get_commit.
    rewrite decide_True; [done |].
    apply list_elem_of_fmap. by exists (k, e). }
  split; [| split; [| split]].
  - intros k e Hlast Hin.
    by destruct (scan_sound _ _ _ _ _ _ _ _ Hscan Hin) as (_ & _ & _ & Hne).
  - exact Hnew.
  - intros clock' es' ns' t2 Hrun' k e e' Hin Hin'.
    apply filter_and_notify_inv in Hrun' as [Hscan' _].
    destruct (scan_sound _ _ _ _ _ _ _ _ Hscan' Hin') as (_ & _ & _ & Hne).
    apply Hne. by apply (Hnew k e).
  - unfold filter_and_notify.
    rewrite (scan_again cfg (isoformat today) t _ clock es ns Hscan);
      [done | | done].
    intros k Hk. rewrite get_commit. by case_decide.
Qed.

End SchedulerFacts.

(** ** The dedup key *)

Section KeyFacts.

Lemma lstrip_id s : starts_with_space s = false -> lstrip s = s.
Proof. destruct s as [| c s]; simpl; [done | by intros ->]. Qed.

Lemma rstrip_cons c s :
  rstrip (String c s) =
  match rstrip s with
  | EmptyString => if isspace c then EmptyString else String c EmptyString
  | r => String c r
  end.
Proof. reflexivity. Qed.

Lemma rstrip_id s : ends_with_space s = false -> rstrip s = s.
Proof.
  induction s as [| c s IH]; [done |].
  destruct s as [| c' s'].
  - simpl. by intros ->.
  - intros Hend. rewrite rstrip_cons, (IH Hend). reflexivity.
Qed.

Lemma strip_id s :
  starts_with_space s = false -> ends_with_space s = false -> strip s = s.
Proof. intros Hs He. unfold strip. by rewrite rstrip_id, lstrip_id. Qed.

Lemma append_cons c a b : String c a +:+ b = String c (a +:+ b).
Proof. reflexivity. Qed.

Lemma append_empty_inv a b : a +:+ b = "" -> b = "".
Proof. destruct a; [| by rewrite append_cons]. by intros <-. Qed.

Lemma ends_with_space_app a b :
  b <> "" -> ends_with_space (a +:+ b) = ends_with_space b.
Proof.
  intros Hb. induction a as [| c a IH]; [reflexivity |].
  rewrite append_cons. destruct (a +:+ b) eqn:E; [| exact IH].
  by apply append_empty_inv in E.
Qed.

Lemma key_text_edges name sd :
  starts_with_space name = false -> ends_with_space sd = false ->
  starts_with_space (name +:+ "::" +:+ sd) = false /\
  ends_with_space (name +:+ "::" +:+ sd) = false.
Proof.
  intros Hs He. split.
  - destruct name; [reflexivity | by rewrite append_cons].
  - rewrite ends_with_space_app.
    + change ("::" +:+ sd) with (String ":" (String ":" sd)).
      destruct sd as [| c sd]; [reflexivity | exact He].
    + by change ("::" +:+ sd) with (String ":" (String ":" sd)).
Qed.

Lemma field_empty_get e k : field_empty e k -> truthy (dict_get e k) = false.
Proof.
  unfold dict_get. by intros [-> | [-> | ->]].
Qed.

Lemma entry_key_fallback e :
  field_empty e "id" -> field_empty e "ID" -> field_empty e "Id" ->
  entry_key e = fallback_key e.
Proof.
  intros H1 H2 H3. apply field_empty_get in H1, H2, H3.
  unfold entry_key. rewrite !py_or_falsy_l by (by rewrite ?py_or_falsy_l).
  destruct (dict_get e "Id") as [| s]; [done |].
  simpl in H3. by destruct (s =? "")%string.
Qed.

(** C7, as amended. The dedup key is the entry's [id] when that is a
    non-empty string. When [id], [ID] and [Id] are each missing, [null]
    or empty, it is the string [name + "::" + scheduledDate] with leading
    and trailing whitespace removed, for a string [name] and a non-empty
    [scheduledDate]; that is [name + "::" + scheduledDate] itself when
    [name] does not begin and [scheduledDate] does not end with
    whitespace. The key depends on the fields of the entry only, so the
    same entry presented by two polls has the same key. *)
Theorem entry_key_derivation e :
  (forall s, e !! "id" = Some (JStr s) -> s <> "" -> entry_key e = Ok s) /\
  (forall name sd,
     field_empty e "id" -> field_empty e "ID" -> field_empty e "Id" ->
     e !! "name" = Some (JStr name) ->
     e !! "scheduledDate" = Some (JStr sd) -> sd <> "" ->
     entry_key e = Ok (strip (name +:+ "::" +:+ sd)) /\
     (starts_with_space name = false -> ends_with_space sd = false ->
      entry_key e = Ok (name +:+ "::" +:+ sd))) /\
  (forall e' : entry,
     (forall k,
        k ∈ ["id"; "ID"; "Id"; "name"; "scheduledDate"; "scheduled_date"] ->
        e' !! k = e !! k) ->
     entry_key e' = entry_key e).
Proof.
  split; [| split].
  - intros s Hid Hne. unfold entry_key.
    rewrite (dict_get_lookup _ _ _ Hid).
    assert (Ht : truthy (JStr s) = true) by by apply truthy_JStr.
    rewrite !(py_or_truthy_l (JStr s)) by (by rewrite ?py_or_truthy_l).
    simpl in Ht. by destruct (s =? "")%string.
  - intros name sd H1 H2 H3 Hname Hsd Hne.
    assert (Hkey : entry_key e = Ok (strip (name +:+ "::" +:+ sd))).
    { rewrite entry_key_fallback by done. unfold fallback_key.
      rewrite Hname. step. rewrite (dict_get_lookup _ _ _ Hsd).
      assert (Ht : truthy (JStr sd) = true) by by apply truthy_JStr.
      rewrite !(py_or_truthy_l (JStr sd)) by (by rewrite ?py_or_truthy_l).
      reflexivity. }
    split; [done |]. intros Hs He. rewrite Hkey. f_equal.
    destruct (key_text_edges name sd Hs He). by apply strip_id.
  - intros e' Hsame. unfold entry_key, fallback_key, dict_get.
    rewrite !Hsame
      by (repeat first [apply list_elem_of_here | apply list_elem_of_further]).
    reflexivity.
Qed.

End KeyFacts.

(** ** When the scheduler returns *)

Section Returns.
Context `{DateParser}.
Import Calendar.

(** Outside the range of [date] the window arithmetic raises, and
    [is_due] has no handler for it. *)
Lemma is_due_overflow cfg today e s sd :
  py_or (dict_get e "scheduledDate") (dict_get e "scheduled_date") = JStr s ->
  dateparser_parse s = Ok sd ->
  completed e = false ->
  ~ (valid_date (sd - REMIND_START_DAYS_BEFORE cfg) /\
     valid_date (sd + REMIND_END_DAYS_AFTER cfg)) ->
  is_due cfg today e = Raise OverflowError.
Proof.
  intros Hs Hp Hc Hbad.
  destruct (dateparser_parse_ok _ _ Hp) as [Hne Hsd].
  unfold is_due. fold (completed e). rewrite Hs, Hc.
  apply truthy_JStr in Hne. rewrite Hne. cbn [negb parse_field]. rewrite Hp.
  unfold timedelta, date_sub, date_add, valid_date, MAXORDINAL in *.
  destruct (Z.leb_spec (-999999999) (REMIND_START_DAYS_BEFORE cfg)),
    (Z.leb_spec (REMIND_START_DAYS_BEFORE cfg) 999999999); simpl; step;
    try reflexivity.
  destruct (Z.ltb_spec 0 (sd + - REMIND_START_DAYS_BEFORE cfg)),
    (Z.leb_spec (sd + - REMIND_START_DAYS_BEFORE cfg) 3652059); simpl; step;
    try reflexivity.
  destruct (Z.leb_spec (-999999999) (REMIND_END_DAYS_AFTER cfg)),
    (Z.leb_spec (REMIND_END_DAYS_AFTER cfg) 999999999); simpl; step;
    try reflexivity.
  destruct (Z.ltb_spec 0 (sd + REMIND_END_DAYS_AFTER cfg)),
    (Z.leb_spec (sd + REMIND_END_DAYS_AFTER cfg) 3652059); simpl; step;
    try reflexivity.
  lia.
Qed.

Lemma is_due_returns cfg today e :
  window_fits cfg e -> exists b, is_due cfg today e = Ok b.
Proof.
  intros Hfit.
  destruct (truthy (py_or (dict_get e "scheduledDate")
                          (dict_get e "scheduled_date"))) eqn:Ht;
    [| exists false; unfold is_due; by rewrite Ht].
  destruct (parse_field (py_or (dict_get e "scheduledDate")
                               (dict_get e "scheduled_date"))) as [sd | exn] eqn:Hp;
    [| exists false; unfold is_due; by rewrite Ht, Hp].
  destruct (completed e) eqn:Hc; [exists false; by apply is_due_completed |].
  apply parse_field_ok in Hp as (s & Hs & Hp).
  destruct (Hfit s sd Hs Hp) as [Hst Hen].
  rewrite (is_due_window cfg today e s sd Hs Hp Hc Hst Hen). eauto.
Qed.

Lemma entry_key_returns e :
  e !! "name" <> Some JNull -> exists k, entry_key e = Ok k.
Proof.
  intros Hname.
  assert (Hfb : exists k, fallback_key e = Ok k).
  { unfold fallback_key.
    destruct (e !! "name") as [[| n] |]; [done | |]; step; eauto. }
  unfold entry_key. destruct (py_or _ _) as [| s]; [done |].
  destruct (s =? "")%string; eauto.
Qed.

(** The scheduler returns on every batch whose entries have a name that
    is not [null] and a window that fits the calendar. *)
Lemma filter_and_notify_returns cfg today clock t es :
  Forall (fun e => e !! "name" <> Some JNull /\ window_fits cfg e) es ->
  exists ns t1, filter_and_notify cfg today clock t es = Ok (ns, t1).
Proof.
  intros Hes.
  assert (Hscan : exists ns, scan cfg (isoformat today) t clock es = Ok ns).
  { revert clock. induction Hes as [| e es [Hname Hfit] _ IH]; intros clock.
    - by exists [].
    - cbn [scan].
      destruct (entry_key_returns e Hname) as [k ->].
      destruct (is_due_returns cfg (clock O) e Hfit) as [b ->].
      destruct (IH (fun i => clock (S i))) as [ns ->]. step.
      destruct (negb b); [eauto |]. destruct (bool_decide _); eauto. }
  destruct Hscan as [ns Hscan]. unfold filter_and_notify. rewrite Hscan. step.
  destruct ns; eauto.
Qed.

End Returns.

(** ** The statements at concrete entries *)

Section Instances.
Import Calendar.

Ltac compute_eq := vm_compute; reflexivity.

Ltac no_such_field :=
  let s := fresh in let d := fresh in let Hk := fresh in
  intros (s & d & Hk & _); vm_compute in Hk; discriminate Hk.

Ltac date_in_range := unfold valid_date, MAXORDINAL; vm_compute; split; discriminate.

(** The scenario entry holds no completion field. *)
Lemma no_completion_pump : @no_completion iso_parser pump.
Proof. split; [| split]; no_such_field. Defined.

(** C1 on a batch of one entry: the run of 2024-06-08 notifies it and
    writes the ledger; the second run of that day notifies nothing. *)
Lemma dedup_once_per_day_witness :
  @filter_and_notify iso_parser cfg_daily (june 8) (fun _ => june 8) [] [pump]
    = Ok ([("m-1", pump)], [("m-1", "2024-06-08")]) /\
  @filter_and_notify iso_parser cfg_daily (june 8) (fun _ => june 8)
    [("m-1", "2024-06-08")] [pump]
    = Ok ([], [("m-1", "2024-06-08")]).
Proof.
  assert (Hrun :
    @filter_and_notify iso_parser cfg_daily (june 8) (fun _ => june 8) [] [pump]
    = Ok ([("m-1", pump)], [("m-1", "2024-06-08")])) by compute_eq.
  split; [exact Hrun |].
  exact (proj2 (proj2 (proj2 (dedup_once_per_day _ _ _ _ _ _ _ Hrun)))).
Defined.

(** C2 on the scenario entry, on 2024-06-09. *)
Lemma repeat_cadence_witness :
  @is_due iso_parser cfg_every2 (june 9) pump = Ok true <->
  june 9 = date_of 2024 6 7 \/ june 9 = date_of 2024 6 9 \/
  june 9 = date_of 2024 6 11.
Proof.
  refine (proj2 (proj2
    (@repeat_cadence iso_parser cfg_every2 (june 9) pump "2024-06-10" (june 10)
       _ _ no_completion_pump _ _ _)) _ _ _ _);
    first [reflexivity | compute_eq | date_in_range].
Defined.

(** C3 on the scenario entry, on the last day of its window. *)
Lemma daily_window_witness :
  @is_due iso_parser cfg_daily (june 12) pump = Ok true <->
  june 10 - 3 <= june 12 <= june 10 + 2.
Proof.
  refine (proj1
    (@daily_window iso_parser cfg_daily (june 12) pump "2024-06-10" (june 10)
       _ _ no_completion_pump _ _ _));
    first [reflexivity | compute_eq | date_in_range | vm_compute; discriminate].
Defined.

(** C4 on the scenario entry completed on 2024-06-08. *)
Lemma completed_never_due_witness :
  @is_due iso_parser cfg_daily (june 9) pump_done = Ok false.
Proof.
  refine (@completed_never_due iso_parser cfg_daily (june 9) pump_done
            "2024-06-08" (june 8) _ _); compute_eq.
Defined.

(** C9 inside the window: the scenario entry is due on 2024-06-09, and is
    not once it carries a [date] field. *)
Lemma date_field_marks_completion_witness :
  @is_due iso_parser cfg_daily (june 9) pump = Ok true /\
  @is_due iso_parser cfg_daily (june 9) pump_dated = Ok false.
Proof.
  split; [compute_eq |].
  refine (@date_field_marks_completion iso_parser cfg_daily (june 9) pump_dated
            "2024-06-01" (june 1) _ _ _ _); compute_eq.
Defined.

(** C8, as amended, on an entry whose [scheduledDate] does not parse
    while [scheduled_date] would. *)
Lemma fail_closed_witness :
  @is_due iso_parser cfg_zero (june 10) garbled = Ok false.
Proof.
  refine (@fail_closed iso_parser cfg_zero (june 10) garbled _ _).
  - right. right. exists "soon". split; [compute_eq |].
    intros d Hd. vm_compute in Hd. discriminate Hd.
  - left. exists "soon". split; [compute_eq | discriminate].
Defined.

(** The three-row ledger satisfies the ledger invariant. *)
Lemma wf_ledger3 : wf_table ledger3.
Proof. apply (bool_decide_unpack _). vm_compute. exact I. Defined.

Lemma iso_ledger3 : iso_table ledger3.
Proof.
  intros k v Hin. unfold ledger3 in Hin.
  repeat (apply elem_of_cons in Hin as [Hin | Hin];
          [injection Hin as -> -> |]).
  - exists (june 1). split; [date_in_range | compute_eq].
  - exists (june 5). split; [date_in_range | compute_eq].
  - exists (june 6). split; [date_in_range | compute_eq].
  - by apply elem_of_nil in Hin.
Defined.

(** C5 on the three-row ledger, pruned on 2024-06-10 with a horizon of
    5 days: the rows of 06-01 and 06-05 go, the row of 06-06 stays. *)
Lemma prune_exact_witness :
  prune_old_entries (june 10) ledger3 5 = (2, [("m-3", "2024-06-06")]) /\
  (("m-2", isoformat (june 5)) ∈ [("m-3", "2024-06-06")]
     <-> june 10 - 5 < june 5) /\
  (("m-3", isoformat (june 6)) ∈ [("m-3", "2024-06-06")]
     <-> june 10 - 5 < june 6).
Proof.
  assert (Hrun : prune_old_entries (june 10) ledger3 5
                 = (2, [("m-3", "2024-06-06")])) by compute_eq.
  split; [exact Hrun |].
  assert (Htoday : valid_date (june 10)) by date_in_range.
  destruct (proj2 (prune_exact (june 10) 5 ledger3 2 [("m-3", "2024-06-06")]
                     Htoday iso_ledger3 Hrun) ltac:(reflexivity))
    as (_ & Hrows & _).
  split.
  - apply (Hrows "m-2" (june 5)); [date_in_range |].
    apply list_elem_of_further, list_elem_of_here.
  - apply (Hrows "m-3" (june 6)); [date_in_range |].
    do 2 apply list_elem_of_further. apply list_elem_of_here.
Defined.

(** C6 on the three-row ledger and the key of its second row. *)
Lemma ledger_roundtrip_witness :
  get_last_notified (mark_notified ledger3 "m-2" (isoformat (june 8))) "m-2"
    = Some (isoformat (june 8)) /\
  get_last_notified (snd (reset_reminder ledger3 "m-2")) "m-2" = None.
Proof.
  destruct (ledger_roundtrip ledger3 "m-2" (june 8) wf_ledger3)
    as (Hget & _ & _ & _ & Hreset).
  exact (conj Hget Hreset).
Defined.

(** C10 on a ledger that holds the id ["all"]. *)
Lemma reset_all_is_reserved_witness :
  reset_reminder ledger_all "all" = (true, []) /\
  get_last_notified (snd (reset_reminder ledger_all "m-1")) "all"
    = get_last_notified ledger_all "all".
Proof.
  destruct (reset_all_is_reserved ledger_all "m-1") as [Hall Hone].
  split; [exact Hall |].
  destruct (Hone ltac:(discriminate)) as (_ & _ & _ & Hother & _).
  apply Hother. discriminate.
Defined.

(** C7, as amended, on an entry with an id and on one without. *)
Lemma entry_key_derivation_witness :
  entry_key pump = Ok "m-1" /\
  entry_key padded = Ok (strip (" Replace filter" +:+ "::" +:+ "2024-06-10")).
Proof.
  split.
  - refine (proj1 (entry_key_derivation pump) "m-1" _ _);
      [compute_eq | discriminate].
  - refine (proj1 (proj1 (proj2 (entry_key_derivation padded))
              " Replace filter" "2024-06-10" _ _ _ _ _ _));
      first [by left; compute_eq | compute_eq | discriminate].
Defined.

(** C7, as stated, fails: the fallback key is stripped. For an entry
    without an id whose name begins with a space, the key is not
    [name + "::" + scheduledDate]. *)
Lemma entry_key_counterexample :
  padded !! "id" = None /\
  padded !! "name" = Some (JStr " Replace filter") /\
  padded !! "scheduledDate" = Some (JStr "2024-06-10") /\
  entry_key padded = Ok "Replace filter::2024-06-10" /\
  entry_key padded <> Ok (" Replace filter" +:+ "::" +:+ "2024-06-10").
Proof.
  repeat split; try compute_eq. vm_compute. discriminate.
Qed.

(** C8, as stated, fails: an entry without [scheduledDate] is due when it
    carries the date under [scheduled_date]. *)
Lemma fail_closed_counterexample :
  alias_only !! "scheduledDate" = None /\
  @is_due iso_parser cfg_zero (june 10) alias_only = Ok true.
Proof. split; compute_eq. Qed.

(** The entry scheduled on 0001-01-02 holds no completion field. *)
Lemma no_completion_ancient : @no_completion iso_parser ancient.
Proof. split; [| split]; no_such_field. Qed.

(** C2, as stated, fails: for an entry scheduled on 0001-01-02 with 3
    days before, the window starts before the first date of the calendar.
    0001-01-03 is the day [start + 2 * k] of the cadence and lies in
    [start .. end], yet [is_due] raises [OverflowError] there instead of
    returning [True]. *)
Lemma repeat_cadence_counterexample :
  ancient !! "scheduledDate" = Some (JStr "0001-01-02") /\
  @dateparser_parse iso_parser "0001-01-02" = Ok (date_of 1 1 2) /\
  @no_completion iso_parser ancient /\
  0 < REMIND_REPEAT_DAYS cfg_every2 /\
  (let start_date := date_of 1 1 2 - REMIND_START_DAYS_BEFORE cfg_every2 in
   let end_date := date_of 1 1 2 + REMIND_END_DAYS_AFTER cfg_every2 in
   start_date <= date_of 1 1 3 <= end_date /\
   date_of 1 1 3 = start_date + 2 * REMIND_REPEAT_DAYS cfg_every2) /\
  @is_due iso_parser cfg_every2 (date_of 1 1 3) ancient = Raise OverflowError /\
  @is_due iso_parser cfg_every2 (date_of 1 1 3) ancient <> Ok true.
Proof.
  split; [compute_eq |]. split; [compute_eq |].
  split; [exact no_completion_ancient |]. split; [compute_eq |].
  split; [vm_compute; repeat split; discriminate |].
  split; [compute_eq | vm_compute; discriminate].
Qed.

(** C3, as stated, fails on the same entry: on 0001-01-02, a day of the
    window, [is_due] raises [OverflowError] instead of returning [True],
    and on 2024-06-10, a day outside the window, it raises instead of
    returning [False]. *)
Lemma daily_window_counterexample :
  ancient !! "scheduledDate" = Some (JStr "0001-01-02") /\
  @dateparser_parse iso_parser "0001-01-02" = Ok (date_of 1 1 2) /\
  @no_completion iso_parser ancient /\
  REMIND_REPEAT_DAYS cfg_daily <= 0 /\
  (let start_date := date_of 1 1 2 - REMIND_START_DAYS_BEFORE cfg_daily in
   let end_date := date_of 1 1 2 + REMIND_END_DAYS_AFTER cfg_daily in
   start_date <= date_of 1 1 2 <= end_date /\
   ~ (start_date <= june 10 <= end_date)) /\
  @is_due iso_parser cfg_daily (date_of 1 1 2) ancient = Raise OverflowError /\
  @is_due iso_parser cfg_daily (date_of 1 1 2) ancient <> Ok true /\
  @is_due iso_parser cfg_daily (june 10) ancient = Raise OverflowError /\
  @is_due iso_parser cfg_daily (june 10) ancient <> Ok false.
Proof.
  split; [compute_eq |]. split; [compute_eq |].
  split; [exact no_completion_ancient |].
  split; [vm_compute; discriminate |].
  split.
  { cbv zeta. split; [vm_compute; split; discriminate |].
    vm_compute. intros [_ Hle]. by apply Hle. }
  split; [compute_eq |]. split; [vm_compute; discriminate |].
  split; [compute_eq | vm_compute; discriminate].
Qed.

End Instances.

(** ** More on the evaluator *)

Section EvaluatorMore.
Context `{DateParser}.
Import Calendar.

Lemma scheduled_as_sched e s :
  scheduled_as e s <->
  py_or (dict_get e "scheduledDate") (dict_get e "scheduled_date") = JStr s /\
  s <> "".
Proof.
  unfold scheduled_as. split.
  - intros (Hne & [Hk | [Hempty Hk]]).
    + split; [| done]. rewrite (dict_get_lookup _ _ _ Hk).
      apply py_or_truthy_l. by apply truthy_JStr.
    + split; [| done]. rewrite py_or_falsy_l by by apply field_empty_get.
      by apply dict_get_lookup.
  - intros [Hs Hne]. split; [done |].
    destruct (truthy (dict_get e "scheduledDate")) eqn:Ht.
    + rewrite py_or_truthy_l in Hs by done. left. by apply dict_get_JStr.
    + rewrite py_or_falsy_l in Hs by done. right.
      split; [| by apply dict_get_JStr].
      unfold field_empty, dict_get in *.
      destruct (e !! "scheduledDate") as [[| s'] |]; simpl in Ht; auto.
      destruct (String.eqb_spec s' ""); [subst; auto | done].
Qed.

(** Every way [is_due] can end, by what it read. *)
Lemma is_due_cases cfg today e :
  (is_due cfg today e = Ok false /\
   forall s, scheduled_as e s -> forall sd, dateparser_parse s = Ok sd ->
             completed e = true) \/
  exists s sd,
    scheduled_as e s /\ dateparser_parse s = Ok sd /\ completed e = false.
Proof.
  destruct (truthy (py_or (dict_get e "scheduledDate")
                          (dict_get e "scheduled_date"))) eqn:Ht.
  - destruct (py_or (dict_get e "scheduledDate") (dict_get e "scheduled_date"))
      as [| s] eqn:Hs; [done |].
    apply truthy_JStr in Ht.
    assert (Has : scheduled_as e s) by by apply scheduled_as_sched.
    destruct (dateparser_parse s) as [sd | exn] eqn:Hp.
    + destruct (completed e) eqn:Hc.
      * left. split; [by apply is_due_completed | done].
      * right. by exists s, sd.
    + left. split.
      * unfold is_due. rewrite Hs. apply truthy_JStr in Ht. rewrite Ht.
        cbn [negb parse_field]. by rewrite Hp.
      * intros s' Has' sd Hp'. apply scheduled_as_sched in Has' as [Hs' _].
        congruence.
  - left. split; [unfold is_due; by rewrite Ht |].
    intros s Has. apply scheduled_as_sched in Has as [Hs Hne].
    rewrite Hs in Ht. apply truthy_JStr in Hne. congruence.
Qed.

Lemma scheduled_as_inj e s s' : scheduled_as e s -> scheduled_as e s' -> s = s'.
Proof.
  intros [Hs _]%scheduled_as_sched [Hs' _]%scheduled_as_sched. congruence.
Qed.

(** X1. Whatever the entry and the settings, [is_due] answers [True] only
    on a day inside the window around the scheduled date it read, and
    only for an entry it does not hold completed. *)
Theorem due_only_inside_window cfg today e :
  is_due cfg today e = Ok true ->
  exists s sd,
    scheduled_as e s /\ dateparser_parse s = Ok sd /\ completed e = false /\
    sd - REMIND_START_DAYS_BEFORE cfg <= today
      <= sd + REMIND_END_DAYS_AFTER cfg.
Proof.
  intros Hdue.
  destruct (is_due_cases cfg today e) as [[Hf _] | (s & sd & Has & Hp & Hc)];
    [congruence |].
  exists s, sd. do 3 (split; [done |]).
  apply scheduled_as_sched in Has as [Hs _].
  destruct (decide (valid_date (sd - REMIND_START_DAYS_BEFORE cfg) /\
                    valid_date (sd + REMIND_END_DAYS_AFTER cfg)))
    as [[Hst Hen] | Hbad].
  - rewrite (is_due_window cfg today e s sd Hs Hp Hc Hst Hen) in Hdue.
    injection Hdue as Hdue. rewrite !andb_true_iff, !Z.leb_le in Hdue. lia.
  - rewrite (is_due_overflow cfg today e s sd Hs Hp Hc Hbad) in Hdue. done.
Qed.

(** [is_due] looks at the entry through the scheduled date it reads and
    through its completion test, and at nothing else. *)
Lemma is_due_ext cfg today e e' :
  py_or (dict_get e "scheduledDate") (dict_get e "scheduled_date")
  = py_or (dict_get e' "scheduledDate") (dict_get e' "scheduled_date") ->
  completed e = completed e' ->
  is_due cfg today e = is_due cfg today e'.
Proof.
  intros Hs Hc. unfold is_due. fold (completed e) (completed e').
  by rewrite Hs, Hc.
Qed.

Lemma dict_get_insert_ne (e : entry) k k' v :
  k <> k' -> dict_get (<[k := v]> e) k' = dict_get e k'.
Proof. intros Hne. unfold dict_get. by rewrite lookup_insert_ne. Qed.

Lemma dict_get_insert_eq (e : entry) k v : dict_get (<[k := v]> e) k = v.
Proof. unfold dict_get. by rewrite lookup_insert_eq. Qed.

Lemma dict_get_delete_ne (e : entry) k k' :
  k <> k' -> dict_get (delete k e) k' = dict_get e k'.
Proof. intros Hne. unfold dict_get. by rewrite lookup_delete_ne. Qed.

Lemma dict_get_delete_eq (e : entry) k : dict_get (delete k e) k = JNull.
Proof. unfold dict_get. by rewrite lookup_delete_eq. Qed.

(** X2. The first day of the window is a due day under every repeat
    setting; and when the settings put the start of the window after its
    end, the entry is due on no day at all. *)
Theorem window_first_day cfg e s sd :
  scheduled_as e s ->
  dateparser_parse s = Ok sd ->
  completed e = false ->
  valid_date (sd - REMIND_START_DAYS_BEFORE cfg) ->
  valid_date (sd + REMIND_END_DAYS_AFTER cfg) ->
  let start_date := sd - REMIND_START_DAYS_BEFORE cfg in
  let end_date := sd + REMIND_END_DAYS_AFTER cfg in
  (start_date <= end_date -> is_due cfg start_date e = Ok true) /\
  (end_date < start_date -> forall today, is_due cfg today e = Ok false).
Proof.
  intros [Hs _]%scheduled_as_sched Hp Hc Hst Hen start_date end_date.
  split.
  - intros Hle.
    rewrite (is_due_window cfg start_date e s sd Hs Hp Hc Hst Hen).
    fold start_date end_date. rewrite Z.sub_diag, Zmod_0_l.
    f_equal. rewrite orb_true_r, andb_true_r.
    apply andb_true_iff. split; apply Z.leb_le; lia.
  - intros Hlt today.
    rewrite (is_due_window cfg today e s sd Hs Hp Hc Hst Hen).
    fold start_date end_date. f_equal.
    destruct (Z.leb_spec start_date today), (Z.leb_spec today end_date);
      simpl; first [reflexivity | lia].
Qed.

(** How many of the days [s], [s + 1], ..., [s + n] lie a multiple of
    [k] after [s]. *)
Lemma count_multiples s k (n : nat) :
  0 < k ->
  Z.of_nat (length (List.filter (fun d => (d - s) mod k =? 0)
                                (seqZ s (Z.of_nat n + 1))))
  = Z.of_nat n / k + 1.
Proof.
  intros Hk. induction n as [| n IH].
  - change (Z.of_nat 0 + 1) with 1. rewrite seqZ_cons, seqZ_nil by lia.
    simpl. rewrite Z.sub_diag, Zmod_0_l. simpl. by rewrite Z.div_0_l by lia.
  - replace (Z.of_nat (S n) + 1) with ((Z.of_nat n + 1) + 1) by lia.
    rewrite seqZ_app by lia. rewrite List.filter_app, length_app.
    rewrite Nat2Z.inj_add, IH.
    rewrite seqZ_cons, seqZ_nil by lia. simpl.
    replace (s + (Z.of_nat n + 1) - s) with (Z.of_nat n + 1) by lia.
    replace (Z.of_nat (S n)) with (Z.of_nat n + 1) by lia.
    destruct (Z.eqb_spec ((Z.of_nat n + 1) mod k) 0) as [Hm | Hm]; simpl;
      Z.div_mod_to_equations; nia.
Qed.

Lemma filter_none_due (l : list Z) : List.filter (fun _ => false) l = [].
Proof. by induction l. Qed.

(** X3. The number of due days of an entry that has a parsable scheduled
    date and is not held completed. When both ends of the window are
    dates of the calendar and the window has
    [n = REMIND_START_DAYS_BEFORE + REMIND_END_DAYS_AFTER >= 0] days after
    its first, it holds [n / k + 1] due days with a repeat of [k > 0],
    and all its [n + 1] days are due with a repeat of 0 or less. When an
    end of the window is not a date of the calendar, [is_due] raising on
    every day, or when the window is empty ([n < 0]), no day of the
    window is due. *)
Theorem due_day_count cfg e s sd :
  scheduled_as e s ->
  dateparser_parse s = Ok sd ->
  completed e = false ->
  let n := REMIND_START_DAYS_BEFORE cfg + REMIND_END_DAYS_AFTER cfg in
  let count :=
    Z.of_nat (length (due_days cfg e (sd - REMIND_START_DAYS_BEFORE cfg)
                                     (sd + REMIND_END_DAYS_AFTER cfg))) in
  (valid_date (sd - REMIND_START_DAYS_BEFORE cfg) ->
   valid_date (sd + REMIND_END_DAYS_AFTER cfg) ->
   0 <= n ->
   count = if REMIND_REPEAT_DAYS cfg <=? 0 then n + 1
           else n / REMIND_REPEAT_DAYS cfg + 1) /\
  (~ (valid_date (sd - REMIND_START_DAYS_BEFORE cfg) /\
      valid_date (sd + REMIND_END_DAYS_AFTER cfg)) \/ n < 0 ->
   count = 0).
Proof.
  intros [Hs _]%scheduled_as_sched Hp Hc n count. subst count.
  unfold due_days.
  set (start_date := sd - REMIND_START_DAYS_BEFORE cfg).
  replace (sd + REMIND_END_DAYS_AFTER cfg - start_date + 1) with (n + 1)
    by (subst n start_date; lia).
  split.
  - intros Hst Hen Hn.
    rewrite (List.filter_ext_in _
      (fun d => (REMIND_REPEAT_DAYS cfg <=? 0)
                || ((d - start_date) mod REMIND_REPEAT_DAYS cfg =? 0))).
    + destruct (Z.leb_spec (REMIND_REPEAT_DAYS cfg) 0) as [Hk | Hk]; simpl.
      * rewrite List.forallb_filter_id by (apply forallb_forall; done).
        rewrite length_seqZ. lia.
      * replace n with (Z.of_nat (Z.to_nat n)) by lia.
        by apply count_multiples.
    + intros d Hd. apply list_elem_of_In, elem_of_seqZ in Hd.
      rewrite (is_due_window cfg d e s sd Hs Hp Hc Hst Hen).
      fold start_date. simpl.
      replace (start_date <=? d) with true by (symmetry; apply Z.leb_le; lia).
      replace (d <=? sd + REMIND_END_DAYS_AFTER cfg) with true
        by (symmetry; apply Z.leb_le; subst n start_date; lia).
      by destruct (_ || _).
  - intros [Hbad | Hn].
    + rewrite (List.filter_ext _ (fun _ => false)), filter_none_due; [done |].
      intros d. by rewrite (is_due_overflow cfg d e s sd Hs Hp Hc Hbad).
    + by rewrite seqZ_nil by lia.
Qed.

(** X4. [scheduled_date] stands in for [scheduledDate] exactly when the
    latter is missing, [null] or empty: the entry is then evaluated as if
    the value were filed under [scheduledDate]; a non-empty
    [scheduledDate] makes [scheduled_date] irrelevant, whatever it holds. *)
Theorem scheduled_date_alias cfg today e :
  (forall v, field_empty e "scheduledDate" ->
             e !! "scheduled_date" = Some v ->
             is_due cfg today e = is_due cfg today (<["scheduledDate" := v]> e)) /\
  (forall s v, e !! "scheduledDate" = Some (JStr s) -> s <> "" ->
               is_due cfg today (<["scheduled_date" := v]> e)
               = is_due cfg today e).
Proof.
  split.
  - intros v Hempty Hk. apply is_due_ext.
    + rewrite py_or_falsy_l by by apply field_empty_get.
      rewrite dict_get_insert_eq, dict_get_insert_ne by done.
      rewrite (dict_get_lookup _ _ _ Hk). unfold py_or. by destruct (truthy v).
    + unfold completed. by rewrite !dict_get_insert_ne by done.
  - intros s v Hk Hne. apply is_due_ext.
    + rewrite dict_get_insert_ne by done. rewrite (dict_get_lookup _ _ _ Hk).
      by rewrite !py_or_truthy_l by by apply truthy_JStr.
    + unfold completed. by rewrite !dict_get_insert_ne by done.
Qed.

(** X5. A [completedDate] that is not empty and does not parse marks
    nothing, and it hides [date] and [completed_date] as well: the entry
    is evaluated as if it carried none of the three fields. *)
Theorem unparsable_completion_is_ignored cfg today e s :
  e !! "completedDate" = Some (JStr s) ->
  s <> "" ->
  (forall d, dateparser_parse s <> Ok d) ->
  is_due cfg today e
  = is_due cfg today
      (delete "completed_date" (delete "date" (delete "completedDate" e))).
Proof.
  intros Hk Hne Hbad. apply is_due_ext.
  - by rewrite !dict_get_delete_ne by done.
  - unfold completed.
    rewrite (dict_get_lookup _ _ _ Hk).
    rewrite !(py_or_truthy_l (JStr s)) by
      (rewrite ?py_or_truthy_l; by apply truthy_JStr).
    rewrite dict_get_delete_eq.
    rewrite !(dict_get_delete_ne _ "completed_date") by done.
    rewrite dict_get_delete_eq.
    rewrite !(dict_get_delete_ne _ "date") by done.
    rewrite dict_get_delete_eq. simpl.
    destruct (dateparser_parse s) as [d |] eqn:Hp; [by destruct (Hbad d) |].
    by rewrite andb_false_r.
Qed.

(** X6. [is_due] raises in one case only: the scheduled date parses, the
    entry is not held completed, and an end of the window falls outside
    the range of [date]; the exception is then [OverflowError], on every
    day. *)
Theorem is_due_raises_iff cfg today e exn :
  is_due cfg today e = Raise exn <->
  exn = OverflowError /\
  exists s sd,
    scheduled_as e s /\ dateparser_parse s = Ok sd /\ completed e = false /\
    ~ (valid_date (sd - REMIND_START_DAYS_BEFORE cfg) /\
       valid_date (sd + REMIND_END_DAYS_AFTER cfg)).
Proof.
  split.
  - intros Hraise.
    destruct (is_due_cases cfg today e) as [[Hf _] | (s & sd & Has & Hp & Hc)];
      [congruence |].
    pose proof Has as [Hs _]%scheduled_as_sched.
    destruct (decide (valid_date (sd - REMIND_START_DAYS_BEFORE cfg) /\
                      valid_date (sd + REMIND_END_DAYS_AFTER cfg)))
      as [[Hst Hen] | Hbad].
    + rewrite (is_due_window cfg today e s sd Hs Hp Hc Hst Hen) in Hraise. done.
    + rewrite (is_due_overflow cfg today e s sd Hs Hp Hc Hbad) in Hraise.
      injection Hraise as <-. split; [done |]. by exists s, sd.
  - intros (-> & s & sd & [Hs _]%scheduled_as_sched & Hp & Hc & Hbad).
    by apply (is_due_overflow cfg today e s sd).
Qed.

End EvaluatorMore.

(** ** More on the ledger *)

Section LedgerMore.
Context `{DateParser}.
Import Calendar CalendarFacts.

Lemma mark_notified_length t k v :
  length (mark_notified t k v)
  = if decide (k ∈ (fst <$> t)) then length t else S (length t).
Proof.
  pose proof (mark_notified_keys t k v) as Hkeys.
  apply (f_equal length) in Hkeys. rewrite length_fmap in Hkeys.
  destruct (decide (k ∈ fst <$> t)).
  - by rewrite length_fmap in Hkeys.
  - rewrite length_app, length_fmap in Hkeys. simpl in Hkeys. lia.
Qed.

(** X7. An upsert touches one key: the lookup of every other key is
    unchanged, and the table grows by one row when the key is new and
    keeps its size when the key is there already. *)
Theorem mark_notified_frame t k v :
  (forall k', k' <> k ->
     get_last_notified (mark_notified t k v) k' = get_last_notified t k') /\
  (get_last_notified t k = None ->
     length (mark_notified t k v) = S (length t)) /\
  (get_last_notified t k <> None ->
     length (mark_notified t k v) = length t).
Proof.
  split; [| split].
  - intros k' Hne. by apply get_mark_ne.
  - intros Hnone%get_last_notified_None.
    rewrite mark_notified_length. by rewrite decide_False.
  - intros Hsome. rewrite mark_notified_length.
    rewrite decide_True; [done |].
    destruct (decide (k ∈ fst <$> t)) as [| Hnin]; [done |].
    by apply get_last_notified_None in Hnin.
Qed.

(** X8. The last writer wins: two upserts of one key leave the table that
    the second alone would leave, so repeating an upsert changes nothing. *)
Theorem mark_notified_overwrites t k v1 v2 :
  mark_notified (mark_notified t k v1) k v2 = mark_notified t k v2.
Proof.
  induction t as [| [k0 v0] t IH]; simpl.
  - by rewrite String.eqb_refl.
  - destruct (String.eqb_spec k0 k) as [-> | Hne]; simpl.
    + by rewrite String.eqb_refl.
    + destruct (String.eqb_spec k0 k); [done |]. by rewrite IH.
Qed.

Lemma sql_delete_absent t k :
  k ∉ (fst <$> t) -> sql_delete (fun r => (fst r =? k)%string) t = t.
Proof.
  induction t as [| [k0 v0] t IH]; simpl; [done |].
  rewrite not_elem_of_cons. intros [Hne Hnin].
  destruct (String.eqb_spec k0 k); [congruence |]. simpl. f_equal. auto.
Qed.

(** X9. A reset undoes an upsert: removing the key just written leaves
    what removing it before the write would have left, which is the table
    itself when the key was new. *)
Theorem reset_undoes_mark t k v :
  k <> "all" ->
  snd (reset_reminder (mark_notified t k v) k) = snd (reset_reminder t k) /\
  (get_last_notified t k = None ->
   snd (reset_reminder (mark_notified t k v) k) = t).
Proof.
  intros Hall. unfold reset_reminder.
  destruct (String.eqb_spec k "all"); [done |]. simpl.
  assert (Heq : sql_delete (fun r => (fst r =? k)%string) (mark_notified t k v)
                = sql_delete (fun r => (fst r =? k)%string) t).
  { induction t as [| [k0 v0] t IH]; simpl.
    - by rewrite String.eqb_refl.
    - destruct (String.eqb_spec k0 k) as [-> | Hne]; simpl.
      + by rewrite String.eqb_refl.
      + destruct (String.eqb_spec k0 k); [done |]. simpl. by rewrite IH. }
  split; [done |].
  intros Hnone%get_last_notified_None. rewrite Heq. by apply sql_delete_absent.
Qed.

Lemma sql_delete_idemp cond t :
  sql_delete cond (sql_delete cond t) = sql_delete cond t.
Proof.
  induction t as [| r t IH]; simpl; [done |].
  destruct (cond r) eqn:Hc; simpl; [done |]. by rewrite Hc, IH.
Qed.

(** X10. Pruning is idempotent: pruning again on the same day with the
    same horizon removes nothing and returns 0. *)
Theorem prune_twice today t days :
  prune_old_entries today (snd (prune_old_entries today t days)) days
  = (0, snd (prune_old_entries today t days)).
Proof.
  unfold prune_old_entries.
  destruct (days <=? 0); [done |].
  destruct (_ ← timedelta days; date_sub today _) as [cutoff |]; [| done].
  cbn [snd]. by rewrite sql_delete_idemp, Nat.sub_diag.
Qed.

Lemma get_sql_delete_kept cond t k v :
  get_last_notified t k = Some v -> cond (k, v) = false ->
  get_last_notified (sql_delete cond t) k = Some v.
Proof.
  intros Hget Hc. induction t as [| [k0 v0] t IH]; simpl in *; [done |].
  destruct (String.eqb_spec k0 k) as [-> | Hne].
  - injection Hget as ->. rewrite Hc. simpl. by rewrite String.eqb_refl.
  - destruct (cond (k0, v0)); simpl; [auto |].
    destruct (String.eqb_spec k0 k); [done | auto].
Qed.

Lemma prune_keeps_today today t days k :
  valid_date today ->
  get_last_notified t k = Some (isoformat today) ->
  get_last_notified (snd (prune_old_entries today t days)) k
  = Some (isoformat today).
Proof.
  intros Htoday Hget. unfold prune_old_entries.
  destruct (Z.leb_spec days 0); [done |].
  unfold timedelta, date_sub, date_add.
  destruct ((-999999999 <=? days) && (days <=? 999999999)); step; [| done].
  destruct (Z.ltb_spec 0 (today + - days)),
    (Z.leb_spec (today + - days) MAXORDINAL); simpl; try done.
  apply get_sql_delete_kept; [done |]. simpl.
  assert (valid_date (today + - days)) by (unfold valid_date; lia).
  rewrite isoformat_leb by done. apply Z.leb_gt. lia.
Qed.

(** X11. Pruning does not reopen a day: a key the ledger holds with
    today's date still holds it after [prune_old_entries], whatever the
    horizon, so the scheduler run that follows leaves it out of the
    notify set. *)
Theorem prune_keeps_dedup cfg today clock t days k es ns t1 :
  valid_date today ->
  get_last_notified t k = Some (isoformat today) ->
  filter_and_notify cfg today clock (snd (prune_old_entries today t days)) es
    = Ok (ns, t1) ->
  get_last_notified (snd (prune_old_entries today t days)) k
    = Some (isoformat today) /\
  forall e, (k, e) ∉ ns.
Proof.
  intros Htoday Hget Hrun.
  pose proof (prune_keeps_today today t days k Htoday Hget) as Hkept.
  split; [done |]. intros e Hin.
  apply filter_and_notify_inv in Hrun as [Hscan _].
  by destruct (scan_sound _ _ _ _ _ _ _ _ Hscan Hin) as (_ & _ & _ & Hne).
Qed.

Lemma ascii_compare_trans a b c :
  Ascii.compare a b = Lt -> Ascii.compare b c = Lt -> Ascii.compare a c = Lt.
Proof.
  unfold Ascii.compare. rewrite !N.compare_lt_iff. lia.
Qed.

Lemma string_compare_trans a b c :
  String.compare a b = Lt -> String.compare b c = Lt -> String.compare a c = Lt.
Proof.
  revert b c. induction a as [| x a IH]; intros [| y b] [| z c]; simpl;
    try done.
  destruct (Ascii.compare x y) eqn:Hxy; [| | done].
  - apply Ascii.compare_eq_iff in Hxy as ->.
    destruct (Ascii.compare y z); [apply IH | done | done].
  - destruct (Ascii.compare y z) eqn:Hyz; [| | done].
    + apply Ascii.compare_eq_iff in Hyz as <-. by rewrite Hxy.
    + by rewrite (ascii_compare_trans x y z).
Qed.

Lemma string_leb_trans a b c :
  (a <=? b)%string = true -> (b <=? c)%string = true -> (a <=? c)%string = true.
Proof.
  unfold String.leb.
  destruct (String.compare a b) eqn:Hab; [| | done];
    destruct (String.compare b c) eqn:Hbc; try done; intros _ _.
  - apply String.compare_eq_iff in Hab as ->. by rewrite Hbc.
  - apply String.compare_eq_iff in Hab as ->. by rewrite Hbc.
  - apply String.compare_eq_iff in Hbc as <-. by rewrite Hab.
  - by rewrite (string_compare_trans a b c).
Qed.

Lemma string_leb_total a b :
  (a <=? b)%string = false -> (b <=? a)%string = true.
Proof.
  intros Hab. destruct (String.leb_total a b); congruence.
Qed.

Lemma insert_desc_perm r l : insert_desc r l ≡ₚ r :: l.
Proof.
  induction l as [| r' l IH]; simpl; [done |].
  destruct (_ <=? _)%string; [done |].
  rewrite IH. apply Permutation_swap.
Qed.

Lemma insert_desc_sorted r l :
  StronglySorted newer_or_same l -> StronglySorted newer_or_same (insert_desc r l).
Proof.
  induction 1 as [| r' l Hl IH Hall]; simpl.
  - repeat constructor.
  - destruct (snd r' <=? snd r)%string eqn:Hle.
    + constructor; [by constructor |].
      constructor; [done |].
      eapply Forall_impl; [exact Hall |].
      intros r2 Hr2. unfold newer_or_same in *. by eapply string_leb_trans.
    + constructor; [done |].
      rewrite insert_desc_perm. constructor; [| done].
      by apply string_leb_total.
Qed.

Lemma order_by_perm t : order_by_last_notified_desc t ≡ₚ t.
Proof.
  induction t as [| r t IH]; simpl; [done |].
  by rewrite insert_desc_perm, IH.
Qed.

Lemma order_by_sorted t :
  StronglySorted newer_or_same (order_by_last_notified_desc t).
Proof.
  induction t as [| r t IH]; simpl; [constructor | by apply insert_desc_sorted].
Qed.

(** X12. The listing is the most recent part of the ledger, most recent
    first: its rows together with some remainder make up the ledger row
    for row; each row is followed only by rows at most as recent; every
    row left out is at most as recent as every row shown; and the listing
    has [limit] rows, or all of them when the ledger has fewer or the
    limit is negative. A limit of 0 lists nothing, and a limit that does
    not fit 64 bits lists nothing either. *)
Theorem list_reminders_most_recent t limit :
  (- 2 ^ 63 <= limit < 2 ^ 63 ->
   exists rest,
     list_reminders t limit ++ rest ≡ₚ t /\
     StronglySorted newer_or_same (list_reminders t limit) /\
     (forall r r', r ∈ list_reminders t limit -> r' ∈ rest ->
                   newer_or_same r r') /\
     length (list_reminders t limit)
     = if limit <? 0 then length t else Nat.min (Z.to_nat limit) (length t)) /\
  (limit = 0 -> list_reminders t limit = []) /\
  (limit < - 2 ^ 63 \/ 2 ^ 63 <= limit -> list_reminders t limit = []).
Proof.
  unfold list_reminders, sql_limit. split; [| split].
  - intros Hrange.
    destruct (Z.ltb_spec limit (- 2 ^ 63)), (Z.leb_spec (2 ^ 63) limit);
      try lia. simpl.
    pose proof (order_by_perm t) as Hperm.
    pose proof (order_by_sorted t) as Hsorted.
    destruct (Z.ltb_spec limit 0).
    + exists []. rewrite app_nil_r. split; [done |]. split; [done |].
      split; [by intros r r' _ Hin%elem_of_nil |]. by rewrite Hperm.
    + exists (drop (Z.to_nat limit) (order_by_last_notified_desc t)).
      rewrite take_drop. split; [done |].
      rewrite <- (take_drop (Z.to_nat limit) (order_by_last_notified_desc t))
        in Hsorted.
      split; [by apply StronglySorted_app_1_l in Hsorted |].
      split.
      * intros r r' Hr Hr'.
        by apply (StronglySorted_app_1_elem_of _ _ _ _ _ Hsorted).
      * rewrite length_take. by rewrite Hperm.
  - intros ->. reflexivity.
  - intros Hout.
    destruct (Z.ltb_spec limit (- 2 ^ 63)), (Z.leb_spec (2 ^ 63) limit);
      simpl; first [reflexivity | lia].
Qed.

End LedgerMore.

(** ** More on the scheduler *)

Section SchedulerMore.
Context `{DateParser}.
Import Calendar CalendarFacts.

Lemma scan_complete cfg today t clock es ns i e k :
  scan cfg today t clock es = Ok ns ->
  es !! i = Some e ->
  entry_key e = Ok k ->
  is_due cfg (clock i) e = Ok true ->
  get_last_notified t k <> Some today ->
  (k, e) ∈ ns.
Proof.
  revert clock ns i. induction es as [| e0 es IH]; intros clock ns i Hscan Hi;
    [done |].
  apply scan_cons_inv in Hscan as (eid & due & ns' & Hkey & Hdue & Hrest & ->).
  intros Hk Hd Hget. destruct i as [| i]; simpl in Hi.
  - injection Hi as ->. rewrite Hk in Hkey. injection Hkey as <-.
    rewrite Hd in Hdue. injection Hdue as <-. simpl.
    rewrite bool_decide_eq_false_2 by done. apply list_elem_of_here.
  - pose proof (IH (fun j => clock (S j)) ns' i Hrest Hi Hk Hd Hget) as Hin.
    destruct due; simpl; [| done].
    case_bool_decide; [done | by apply list_elem_of_further].
Qed.

(** X13. No due entry is dropped: an entry of the batch that is due when
    the scheduler evaluates it, and whose key the ledger does not hold
    with today's date, is in the notify set under that key. *)
Theorem notify_set_complete cfg today clock t es ns t1 i e k :
  filter_and_notify cfg today clock t es = Ok (ns, t1) ->
  es !! i = Some e ->
  entry_key e = Ok k ->
  is_due cfg (clock i) e = Ok true ->
  get_last_notified t k <> Some (isoformat today) ->
  (k, e) ∈ ns.
Proof.
  intros [Hscan _]%filter_and_notify_inv. by eapply scan_complete.
Qed.

Lemma scan_sublist cfg today t clock es ns :
  scan cfg today t clock es = Ok ns -> ns.*2 `sublist_of` es.
Proof.
  revert clock ns. induction es as [| e0 es IH]; intros clock ns Hscan.
  - injection Hscan as <-. constructor.
  - apply scan_cons_inv in Hscan as (eid & due & ns' & _ & _ & Hrest & ->).
    specialize (IH _ _ Hrest).
    destruct due; simpl; [| by constructor].
    case_bool_decide; simpl; by constructor.
Qed.

(** X14. The list handed to [notify] is the batch with some entries left
    out: the entries notified appear in the order of the batch, each as
    often as the batch holds it at most, and each under its own key. *)
Theorem notify_set_in_batch_order cfg today clock t es ns t1 :
  filter_and_notify cfg today clock t es = Ok (ns, t1) ->
  ns.*2 `sublist_of` es /\
  forall k e, (k, e) ∈ ns -> entry_key e = Ok k.
Proof.
  intros [Hscan _]%filter_and_notify_inv. split; [by eapply scan_sublist |].
  intros k e Hin. by destruct (scan_sound _ _ _ _ _ _ _ _ Hscan Hin) as (_ & ? & _).
Qed.

Lemma commit_length today ns t :
  (length t <= length (commit today ns t) <= length t + length ns)%nat.
Proof.
  revert t. induction ns as [| [k0 e0] ns IH]; intros t; simpl; [lia |].
  specialize (IH (mark_notified t k0 today)).
  rewrite mark_notified_length in IH. case_decide; lia.
Qed.

(** X15. A run only adds to the ledger: the lookup of a key that is not
    notified is what it was, a key notified reads today's date, no key
    is lost, and the number of rows grows by the size of the notify set
    at most. *)
Theorem run_only_marks_notified cfg today clock t es ns t1 :
  filter_and_notify cfg today clock t es = Ok (ns, t1) ->
  (forall k, k ∉ ns.*1 -> get_last_notified t1 k = get_last_notified t k) /\
  (forall k, k ∈ ns.*1 -> get_last_notified t1 k = Some (isoformat today)) /\
  (forall k, get_last_notified t k <> None -> get_last_notified t1 k <> None) /\
  (length t <= length t1 <= length t + length ns)%nat.
Proof.
  intros [_ ->]%filter_and_notify_inv.
  split; [| split; [| split]].
  - intros k Hk. rewrite get_commit. by rewrite decide_False.
  - intros k Hk. rewrite get_commit. by rewrite decide_True.
  - intros k Hk. rewrite get_commit. by case_decide.
  - apply commit_length.
Qed.

Lemma entry_key_raises e exn :
  entry_key e = Raise exn <-> exn = TypeError /\ keyless e.
Proof.
  unfold keyless. split.
  - intros Hraise.
    assert (Hfb : fallback_key e = Raise exn ->
                  exn = TypeError /\ e !! "name" = Some JNull).
    { unfold fallback_key. destruct (e !! "name") as [[| n] |]; step; [| done..].
      by intros [= <-]. }
    assert (Hnone : forall k, truthy (dict_get e k) = false -> field_empty e k).
    { intros k. unfold field_empty, dict_get.
      destruct (e !! k) as [[| s] |]; simpl; auto.
      destruct (String.eqb_spec s ""); [subst; auto | done]. }
    unfold entry_key in Hraise.
    destruct (truthy (dict_get e "id")) eqn:H1.
    { rewrite !(py_or_truthy_l (dict_get e "id")) in Hraise
        by (by rewrite ?py_or_truthy_l).
      destruct (dict_get e "id") as [| s]; [done |]. simpl in H1.
      by destruct (s =? "")%string. }
    rewrite (py_or_falsy_l (dict_get e "id")) in Hraise by done.
    destruct (truthy (dict_get e "ID")) eqn:H2.
    { rewrite py_or_truthy_l in Hraise by done.
      destruct (dict_get e "ID") as [| s]; [done |]. simpl in H2.
      by destruct (s =? "")%string. }
    rewrite py_or_falsy_l in Hraise by done.
    destruct (truthy (dict_get e "Id")) eqn:H3.
    { destruct (dict_get e "Id") as [| s]; [done |]. simpl in H3.
      by destruct (s =? "")%string. }
    assert (fallback_key e = Raise exn) as [-> Hname]%Hfb.
    { destruct (dict_get e "Id") as [| s]; [done |].
      by destruct (s =? "")%string. }
    repeat split; auto.
  - intros (-> & H1 & H2 & H3 & Hname).
    rewrite entry_key_fallback by done. unfold fallback_key. by rewrite Hname.
Qed.

Lemma scan_raises cfg today t clock es :
  (exists exn, scan cfg today t clock es = Raise exn) <->
  exists i e, es !! i = Some e /\
    ((exists exn, entry_key e = Raise exn) \/
     (exists exn, is_due cfg (clock i) e = Raise exn)).
Proof.
  revert clock. induction es as [| e0 es IH]; intros clock.
  - split; [by intros [? ?] | by intros (i & e & Hi & _)].
  - cbn [scan]. specialize (IH (fun i => clock (S i))).
    destruct (entry_key e0) as [k | x1] eqn:Hk; step.
    2:{ split; [| eauto]. intros _. exists O, e0. eauto. }
    destruct (is_due cfg (clock O) e0) as [due | x2] eqn:Hd; step.
    2:{ split; [| eauto]. intros _. exists O, e0. eauto. }
    destruct (scan cfg today t _ es) as [ns | x3] eqn:Hscan; step.
    + split.
      * intros [exn Hexn]. destruct (negb due); [done |].
        by destruct (bool_decide _).
      * intros (i & e' & Hi & Hraise). destruct i as [| i]; simpl in Hi.
        -- injection Hi as <-.
           destruct Hraise as [[? ?] | [? ?]]; congruence.
        -- assert (exists exn, @Ok (list (string * entry)) ns = Raise exn)
             as [? ?]; [| done].
           apply IH. eauto.
    + split; [| eauto]. intros _.
      destruct (proj1 IH ltac:(eauto)) as (i & e' & Hi & Hraise).
      exists (S i), e'. eauto.
Qed.

(** X16. One entry can stop a run. [filter_and_notify] raises, and so
    notifies nobody, exactly when the batch holds an entry without id
    whose name is [null], or an entry on which [is_due] raises; whether
    that entry is due or was notified already plays no part. *)
Theorem run_raises_iff cfg today clock t es :
  (exists exn, filter_and_notify cfg today clock t es = Raise exn) <->
  exists i e, es !! i = Some e /\
    (keyless e \/ exists exn, is_due cfg (clock i) e = Raise exn).
Proof.
  assert (Hrun : (exists exn, filter_and_notify cfg today clock t es = Raise exn)
                 <-> exists exn, scan cfg (isoformat today) t clock es = Raise exn).
  { unfold filter_and_notify.
    destruct (scan cfg (isoformat today) t clock es) as [ns |]; step.
    - split; intros [exn Hexn]; [by destruct ns | done].
    - split; intros [exn [= <-]]; eauto. }
  rewrite Hrun, scan_raises.
  split; intros (i & e & Hi & Hraise); exists i, e; (split; [done |]).
  - destruct Hraise as [[exn Hk] | Hd]; [| by right].
    left. by apply entry_key_raises in Hk as [_ ?].
  - destruct Hraise as [Hk | Hd]; [| by right].
    left. exists TypeError. by apply entry_key_raises.
Qed.

(** X17. The dedup lasts for the day: a due entry whose key the ledger
    holds with the date of another day is notified again, and the run
    replaces that date by today's. *)
Theorem renotified_on_another_day cfg today clock t es ns t1 i e k d :
  valid_date today -> valid_date d -> d <> today ->
  filter_and_notify cfg today clock t es = Ok (ns, t1) ->
  es !! i = Some e ->
  entry_key e = Ok k ->
  is_due cfg (clock i) e = Ok true ->
  get_last_notified t k = Some (isoformat d) ->
  (k, e) ∈ ns /\ get_last_notified t1 k = Some (isoformat today).
Proof.
  intros Htoday Hd Hne Hrun Hi Hk Hdue Hget.
  apply filter_and_notify_inv in Hrun as [Hscan ->].
  assert (Hin : (k, e) ∈ ns).
  { eapply scan_complete; [done.. |]. rewrite Hget. intros [= Heq].
    by apply isoformat_inj in Heq. }
  split; [done |]. rewrite get_commit. rewrite decide_True; [done |].
  apply list_elem_of_fmap. by exists (k, e).
Qed.

Lemma main_loop_cons_inv cfg run_once p polls t nss t' :
  main_loop cfg run_once (p :: polls) t = Ok (nss, t') ->
  exists ns t1,
    filter_and_notify cfg (poll_today p) (poll_clock p) t
      (fetch_scheduled_maintenance (poll_response p)) = Ok (ns, t1) /\
    if run_once then nss = [ns] /\ t' = t1
    else exists nss', main_loop cfg run_once polls t1 = Ok (nss', t') /\
                      nss = ns :: nss'.
Proof.
  cbn [main_loop]. step.
  destruct (filter_and_notify _ _ _ _ _) as [[ns t1] |]; [| done].
  intros Hloop. exists ns, t1. split; [done |]. simpl in Hloop.
  destruct run_once; [by injection Hloop as <- <- |].
  destruct (main_loop cfg false polls t1) as [[nss' t2] |]; [| done].
  simpl in Hloop. injection Hloop as <- <-. by exists nss'.
Qed.

(** A key the ledger holds with today's date is notified by no poll of
    that day. *)
Lemma main_loop_marked cfg run_once today polls t nss t' k :
  Forall (fun p => poll_today p = today) polls ->
  main_loop cfg run_once polls t = Ok (nss, t') ->
  get_last_notified t k = Some (isoformat today) ->
  forall ns e, ns ∈ nss -> (k, e) ∉ ns.
Proof.
  intros Hday. revert t nss.
  induction Hday as [| p polls Hp _ IH]; intros t nss Hloop Hget ns e Hns.
  - injection Hloop as <- <-. by apply elem_of_nil in Hns.
  - apply main_loop_cons_inv in Hloop as (ns0 & t1 & Hrun & Hrest).
    rewrite Hp in Hrun.
    pose proof Hrun as [Hscan ->]%filter_and_notify_inv.
    assert (Hhead : (k, e) ∉ ns0).
    { intros Hin.
      by destruct (scan_sound _ _ _ _ _ _ _ _ Hscan Hin) as (_ & _ & _ & Hne). }
    assert (Hget1 : get_last_notified (commit (isoformat today) ns0 t) k
                    = Some (isoformat today)).
    { rewrite get_commit. by case_decide. }
    destruct run_once.
    + destruct Hrest as [-> _]. by apply list_elem_of_singleton in Hns as ->.
    + destruct Hrest as (nss' & Hloop' & ->).
      apply elem_of_cons in Hns as [-> | Hns]; [done |].
      by apply (IH _ _ Hloop' Hget1).
Qed.

(** X18. Over the polls of one day, however many, a key is notified by
    one poll at most: what an earlier iteration of [main_loop] notified,
    no later iteration of that day notifies again. *)
Theorem one_poll_per_day_notifies cfg run_once today polls t nss t' :
  Forall (fun p => poll_today p = today) polls ->
  main_loop cfg run_once polls t = Ok (nss, t') ->
  forall i j ns ns' k e e',
    (i < j)%nat -> nss !! i = Some ns -> nss !! j = Some ns' ->
    (k, e) ∈ ns -> (k, e') ∉ ns'.
Proof.
  intros Hday. revert t nss.
  induction Hday as [| p polls Hp Hday IH];
    intros t nss Hloop i j ns ns' k e e' Hij Hi Hj Hin.
  - by injection Hloop as <- <-.
  - apply main_loop_cons_inv in Hloop as (ns0 & t1 & Hrun & Hrest).
    rewrite Hp in Hrun.
    destruct run_once.
    + destruct Hrest as [-> _]. destruct j as [| j]; [lia | done].
    + destruct Hrest as (nss' & Hloop' & ->).
      destruct j as [| j]; [lia |]. simpl in Hj.
      destruct i as [| i]; simpl in Hi.
      * injection Hi as ->.
        pose proof Hrun as [_ ->]%filter_and_notify_inv.
        eapply (main_loop_marked _ _ _ _ _ _ _ k Hday Hloop').
        -- rewrite get_commit. rewrite decide_True; [done |].
           apply list_elem_of_fmap. by exists (k, e).
        -- by eapply list_elem_of_lookup_2.
      * eapply (IH _ _ Hloop' i j); [lia | done..].
Qed.

End SchedulerMore.

(** ** More on keys and names *)

Section KeyMore.

Lemma append_nil_l s : "" +:+ s = s.
Proof. reflexivity. Qed.

Lemma append_nonempty a b : b <> "" -> a +:+ b <> "".
Proof. intros Hb Hab. by apply append_empty_inv in Hab. Qed.

Lemma rstrip_nonspace c s :
  isspace c = false -> rstrip (String c s) = String c (rstrip s).
Proof. intros Hc. rewrite rstrip_cons, Hc. by destruct (rstrip s). Qed.

Lemma rstrip_app a b : rstrip b <> "" -> rstrip (a +:+ b) = a +:+ rstrip b.
Proof.
  intros Hb. induction a as [| c a IH]; [done |].
  rewrite !append_cons, rstrip_cons, IH.
  pose proof (append_nonempty a (rstrip b) Hb).
  by destruct (a +:+ rstrip b).
Qed.

Lemma lstrip_app a c b :
  isspace c = false ->
  lstrip (a +:+ String c b) = lstrip a +:+ String c b.
Proof.
  intros Hc. induction a as [| x a IH].
  - rewrite append_nil_l. simpl. by rewrite Hc.
  - rewrite append_cons. simpl. destruct (isspace x); [done |].
    by rewrite append_cons.
Qed.

(** What [strip] removes from [name + "::" + sd]. *)
Lemma strip_key_text name sd :
  strip (name +:+ "::" +:+ sd) = lstrip name +:+ "::" +:+ rstrip sd.
Proof.
  unfold strip.
  change ("::" +:+ sd) with (String ":" (String ":" sd)).
  assert (Hr : rstrip (String ":" (String ":" sd))
               = String ":" (String ":" (rstrip sd))).
  { by rewrite !rstrip_nonspace. }
  rewrite rstrip_app by (by rewrite Hr). rewrite Hr.
  by rewrite lstrip_app.
Qed.

Lemma fallback_key_form e name :
  field_empty e "id" -> field_empty e "ID" -> field_empty e "Id" ->
  e !! "name" = Some (JStr name) ->
  entry_key e =
  Ok (lstrip name +:+ "::" +:+
      rstrip (py_str (py_or (py_or (dict_get e "scheduledDate")
                                   (dict_get e "scheduled_date"))
                            (JStr "")))).
Proof.
  intros H1 H2 H3 Hname. rewrite entry_key_fallback by done.
  unfold fallback_key. rewrite Hname. step. by rewrite strip_key_text.
Qed.

(** X19. Of the fallback key only the ends are trimmed: for an entry
    without id it is the name without its leading whitespace, ["::"], and
    the scheduled date without its trailing whitespace; whitespace
    elsewhere is kept. *)
Theorem fallback_key_exact e name sd :
  field_empty e "id" -> field_empty e "ID" -> field_empty e "Id" ->
  e !! "name" = Some (JStr name) ->
  e !! "scheduledDate" = Some (JStr sd) -> sd <> "" ->
  entry_key e = Ok (lstrip name +:+ "::" +:+ rstrip sd).
Proof.
  intros H1 H2 H3 Hname Hsd Hne.
  rewrite (fallback_key_form e name) by done.
  rewrite (dict_get_lookup _ _ _ Hsd).
  assert (Ht : truthy (JStr sd) = true) by by apply truthy_JStr.
  by rewrite !(py_or_truthy_l (JStr sd)) by (by rewrite ?py_or_truthy_l).
Qed.

Lemma before_sep_tail c s : before_sep (String c s) = None -> before_sep s = None.
Proof.
  simpl. destruct s as [| c' s']; [done |].
  destruct ((c =? ":")%char && (c' =? ":")%char); [done |].
  by destruct (before_sep (String c' s')).
Qed.

Lemma sep_free_lstrip s : sep_free s -> sep_free (lstrip s).
Proof.
  unfold sep_free. induction s as [| c s IH]; [done |].
  intros Hs. simpl. destruct (isspace c); [| done].
  apply IH. rewrite append_cons in Hs. by apply before_sep_tail in Hs.
Qed.

Lemma before_sep_cons c c' s :
  before_sep (String c (String c' s)) =
  if (c =? ":")%char && (c' =? ":")%char then Some ""
  else String c <$> before_sep (String c' s).
Proof. reflexivity. Qed.

Lemma same_first_char a b :
  exists c x y,
    a +:+ ":" = String c x /\ a +:+ "::" +:+ b = String c y.
Proof.
  destruct a as [| c a].
  - exists ":"%char, "", (String ":" b). done.
  - exists c, (a +:+ ":"), (a +:+ "::" +:+ b). by rewrite !append_cons.
Qed.

Lemma before_sep_app a b :
  sep_free a -> before_sep (a +:+ "::" +:+ b) = Some a.
Proof.
  unfold sep_free. induction a as [| c a IH]; [done |].
  rewrite (append_cons c a ":"), (append_cons c a ("::" +:+ b)). intros Hs.
  pose proof (before_sep_tail _ _ Hs) as Hs'. specialize (IH Hs').
  destruct (same_first_char a b) as (c' & x & y & Hx & Hy).
  rewrite Hx in Hs. rewrite Hy in IH |- *.
  rewrite before_sep_cons in Hs |- *.
  destruct ((c =? ":")%char && (c' =? ":")%char); [done |].
  by rewrite IH.
Qed.

(** X20. The listing recovers the name from a fallback key: for an entry
    without id whose name holds no ["::"] and does not end with [":"],
    [get_maintenance_name] on the entry's key returns the name without
    its leading whitespace, whatever the API would answer. *)
Theorem display_name_of_fallback_key e name :
  field_empty e "id" -> field_empty e "ID" -> field_empty e "Id" ->
  e !! "name" = Some (JStr name) ->
  sep_free name ->
  exists k, entry_key e = Ok k /\
            forall api, get_maintenance_name api k = lstrip name.
Proof.
  intros H1 H2 H3 Hname Hfree.
  eexists. split; [by apply fallback_key_form |].
  intros api. unfold get_maintenance_name.
  by rewrite before_sep_app by by apply sep_free_lstrip.
Qed.

End KeyMore.

(** ** Notification *)

Section NotifyFacts.

Lemma lstrip_no_lead s : starts_with_space (lstrip s) = false.
Proof.
  induction s as [| c s IH]; [done |].
  simpl. destruct (isspace c) eqn:Hc; [done | by simpl].
Qed.

Lemma rstrip_no_trail s : ends_with_space (rstrip s) = false.
Proof.
  induction s as [| c s IH]; [done |].
  rewrite rstrip_cons. destruct (rstrip s) as [| c' r].
  - destruct (isspace c) eqn:Hc; [done | by simpl].
  - exact IH.
Qed.

Lemma ends_with_space_cons c c' s :
  ends_with_space (String c (String c' s)) = ends_with_space (String c' s).
Proof. reflexivity. Qed.

Lemma lstrip_keeps_end s :
  ends_with_space s = false -> ends_with_space (lstrip s) = false.
Proof.
  induction s as [| c s IH]; [done |].
  intros Hend. simpl. destruct (isspace c) eqn:Hc; [| done].
  apply IH. destruct s as [| c' s']; [done |].
  by rewrite ends_with_space_cons in Hend.
Qed.

Lemma lstrip_keeps_clean s :
  has_separator s = false -> has_separator (lstrip s) = false.
Proof.
  induction s as [| c s IH]; [done |].
  intros Hs. cbn [lstrip]. destruct (isspace c); [| exact Hs].
  apply IH. simpl in Hs. by apply orb_false_iff in Hs as [_ ?].
Qed.

Lemma rstrip_keeps_clean s :
  has_separator s = false -> has_separator (rstrip s) = false.
Proof.
  induction s as [| c s IH]; [done |].
  simpl. intros [Hc Hs]%orb_false_iff. specialize (IH Hs).
  destruct (rstrip s) as [| c' r].
  - destruct (isspace c); [done |]. simpl. by rewrite Hc.
  - simpl in *. by rewrite Hc, IH.
Qed.

(** What [strip] leaves has no whitespace at either end. *)
Lemma strip_ends s :
  starts_with_space (strip s) = false /\ ends_with_space (strip s) = false.
Proof.
  unfold strip. split; [apply lstrip_no_lead |].
  apply lstrip_keeps_end, rstrip_no_trail.
Qed.

Lemma split_commas_pieces s p :
  p ∈ split_commas (replace_semicolons s) -> has_separator p = false.
Proof.
  revert p. induction s as [| c s IH]; intros p; simpl.
  - by intros ->%list_elem_of_singleton.
  - destruct (Ascii.eqb_spec c ";") as [-> | Hsemi]; simpl.
    + intros [-> | Hp]%elem_of_cons; [done | auto].
    + destruct (Ascii.eqb_spec c ",") as [-> | Hcomma].
      * intros [-> | Hp]%elem_of_cons; [done | auto].
      * destruct (split_commas (replace_semicolons s)) as [| q qs].
        -- intros ->%list_elem_of_singleton. simpl.
           destruct (Ascii.eqb_spec c ","), (Ascii.eqb_spec c ";"); done.
        -- intros [-> | Hp]%elem_of_cons.
           ++ simpl. rewrite (IH q) by apply list_elem_of_here.
              destruct (Ascii.eqb_spec c ","), (Ascii.eqb_spec c ";"); done.
           ++ apply IH. by apply list_elem_of_further.
Qed.

(** X21. The URLs read from [NOTIFIER_URLS]: commas and semicolons both
    separate, whitespace around an item is dropped and empty items are
    skipped, so every URL obtained is non-empty, free of surrounding
    whitespace and free of separators. *)
Theorem notifier_urls_clean NOTIFIER_URLS u :
  u ∈ notifier_urls NOTIFIER_URLS -> clean_url u.
Proof.
  unfold notifier_urls. intros Hin.
  apply list_elem_of_In, filter_In in Hin as [Hin Hne].
  apply list_elem_of_In, list_elem_of_fmap in Hin as (p & -> & Hp).
  apply split_commas_pieces in Hp.
  destruct (strip_ends p) as [Hs He].
  split; [| split; [done | split; [done |]]].
  - intros Heq. rewrite Heq in Hne. done.
  - by apply lstrip_keeps_clean, rstrip_keeps_clean.
Qed.

Lemma replace_semicolons_clean u :
  has_separator u = false -> replace_semicolons u = u.
Proof.
  induction u as [| c u IH]; [done |].
  simpl. intros [[_ Hc]%orb_false_iff Hu]%orb_false_iff.
  by rewrite Hc, IH.
Qed.

Lemma replace_semicolons_app a b :
  replace_semicolons (a +:+ b) = replace_semicolons a +:+ replace_semicolons b.
Proof.
  induction a as [| c a IH]; [done |].
  rewrite append_cons. simpl. by rewrite IH, append_cons.
Qed.

Lemma split_commas_clean u :
  has_separator u = false -> split_commas u = [u].
Proof.
  induction u as [| c u IH]; [done |].
  simpl. intros [[Hc _]%orb_false_iff Hu]%orb_false_iff.
  by rewrite Hc, IH.
Qed.

Lemma split_commas_app u s :
  has_separator u = false ->
  split_commas (u +:+ "," +:+ s) = u :: split_commas s.
Proof.
  induction u as [| c u IH]; [done |].
  rewrite append_cons. simpl. intros [[Hc _]%orb_false_iff Hu]%orb_false_iff.
  by rewrite Hc, IH.
Qed.

(** X22. A list of URLs, each non-empty and free of surrounding
    whitespace and of separators, joined by commas or by semicolons, is
    read back from [NOTIFIER_URLS] as it was; the empty setting gives the
    empty list. *)
Theorem notifier_urls_join (c : ascii) us :
  c = ","%char \/ c = ";"%char ->
  Forall clean_url us ->
  notifier_urls (str_join (String c "") us) = us.
Proof.
  intros Hc Hus. unfold notifier_urls.
  assert (Hsep : replace_semicolons (String c "") = ",").
  { by destruct Hc as [-> | ->]. }
  induction Hus as [| u us (Hne & Hs & He & Hclean) Hus IH]; [done |].
  assert (Hkeep : negb (strip u =? "")%string = true /\ strip u = u).
  { rewrite strip_id by done. split; [| done].
    by destruct (String.eqb_spec u ""). }
  destruct Hkeep as [Hkeep Hstrip].
  destruct us as [| u' us'].
  - simpl. rewrite replace_semicolons_clean, split_commas_clean by done.
    simpl. by rewrite Hkeep, Hstrip.
  - change (str_join (String c "") (u :: u' :: us'))
      with (u +:+ String c "" +:+ str_join (String c "") (u' :: us')).
    rewrite !replace_semicolons_app, Hsep, replace_semicolons_clean by done.
    rewrite split_commas_app by done.
    rewrite fmap_cons. simpl. rewrite Hkeep, Hstrip. f_equal. exact IH.
Qed.

End NotifyFacts.

(** ** The message of a run *)

Section MessageFacts.
Context `{DateParser}.

Lemma append_assoc (a b c : string) : (a +:+ b) +:+ c = a +:+ b +:+ c.
Proof.
  induction a as [| x a IH]; [done |]. by rewrite !append_cons, IH.
Qed.

(** The line of an entry ends with the value of the chain
    [scheduledDate] or [scheduled_date], as [str] prints it. *)
Lemma reminder_line_end e :
  exists prefix,
    reminder_line e
    = prefix +:+ " scheduled: "
      +:+ py_str (py_or (dict_get e "scheduledDate")
                        (dict_get e "scheduled_date")).
Proof.
  unfold reminder_line.
  set (item := py_or (py_or (dict_get e "itemName") (dict_get e "item_name"))
                     (JStr "")).
  exists (" - " +:+ py_str (py_or (dict_get e "name") (JStr "<unnamed>"))
          +:+ " " +:+ (if truthy item then "for " +:+ py_str item else "")).
  by rewrite !append_assoc.
Qed.

(** A due entry is shown with the date that made it due. *)
Lemma due_shows_date cfg today e :
  is_due cfg today e = Ok true -> shows_date e (reminder_line e).
Proof.
  intros Hdue.
  destruct (is_due_cases cfg today e) as [[Hfalse _] | (s & sd & Has & Hp & _)];
    [congruence |].
  destruct (reminder_line_end e) as [prefix Hline].
  exists s, sd, prefix. split; [done |]. split; [done |].
  apply scheduled_as_sched in Has as [Hs _]. by rewrite Hline, Hs.
Qed.

(** X23. The message shows the dates that were evaluated. Whatever
    [notify] delivers for the list a run of [filter_and_notify] hands to
    it, through Apprise or through the webhook, is the header with the
    number of entries notified, followed by one line for each of them in
    the order of the notify set; each entry has a scheduled date that
    parses, and its line ends with [" scheduled: "] and the very string
    [is_due] read, never with [None]. *)
Theorem delivered_message_shows_dates cfg today clock t es ns t1
    loads NOTIFIER_URLS NOTIFIER_WEBHOOK d :
  filter_and_notify cfg today clock t es = Ok (ns, t1) ->
  d ∈ notify loads NOTIFIER_URLS NOTIFIER_WEBHOOK ns.*2 ->
  exists lines,
    delivery_text d
    = str_join newline
        (("Homebox maintenance reminders (" +:+ pretty (length ns) +:+ "):")
         :: lines) /\
    Forall2 (fun ke l => shows_date ke.2 l) ns lines.
Proof.
  intros [Hscan _]%filter_and_notify_inv Hd.
  exists (reminder_line <$> ns.*2). split.
  - assert (Htext : delivery_text d = reminder_message ns.*2).
    { unfold notify in Hd. destruct (ns.*2) as [| e0 l]; [by apply elem_of_nil in Hd |].
      destruct (if (NOTIFIER_URLS =? "")%string then []
                else List.filter loads (notifier_urls NOTIFIER_URLS)).
      - destruct (NOTIFIER_WEBHOOK =? "")%string; [by apply elem_of_nil in Hd |].
        by apply list_elem_of_singleton in Hd as ->.
      - by apply list_elem_of_singleton in Hd as ->. }
    rewrite Htext. unfold reminder_message. by rewrite length_fmap.
  - rewrite <- list_fmap_compose. apply Forall2_fmap_r, Forall_Forall2_diag.
    apply Forall_forall. intros [k e] Hin.
    destruct (scan_sound _ _ _ _ _ _ _ _ Hscan Hin) as (_ & _ & [i Hdue] & _).
    by eapply due_shows_date.
Qed.

End MessageFacts.

Example render_ex :
  render_boxed_table ["Name"; "ID"] [["Pump"; "m-1"]; ["Fan unit"; "m-22"]]
  = Some [ [9484; 9472; 9472; 9472; 9472; 9472; 9472; 9472; 9472; 9472; 9472;
            9516; 9472; 9472; 9472; 9472; 9472; 9472; 9488];
           [9474; 32; 78; 97; 109; 101; 32; 32; 32; 32; 32;
            9474; 32; 73; 68; 32; 32; 32; 9474];
           [9500; 9472; 9472; 9472; 9472; 9472; 9472; 9472; 9472; 9472; 9472;
            9532; 9472; 9472; 9472; 9472; 9472; 9472; 9508];
           [9474; 32; 80; 117; 109; 112; 32; 32; 32; 32; 32;
            9474; 32; 109; 45; 49; 32; 32; 9474];
           [9500; 9472; 9472; 9472; 9472; 9472; 9472; 9472; 9472; 9472; 9472;
            9532; 9472; 9472; 9472; 9472; 9472; 9472; 9508];
           [9474; 32; 70; 97; 110; 32; 117; 110; 105; 116; 32;
            9474; 32; 109; 45; 50; 50; 32; 9474];
           [9492; 9472; 9472; 9472; 9472; 9472; 9472; 9472; 9472; 9472; 9472;
            9524; 9472; 9472; 9472; 9472; 9472; 9472; 9496] ]%N.
Proof. vm_compute. reflexivity. Qed.

(** ** The boxed table *)

Section TableFacts.

Lemma line_join_length (c : N) parts :
  length (line_join [c] parts)
  = (sum_list (length <$> parts) + (length parts - 1))%nat.
Proof.
  induction parts as [| p parts IH]; [done |].
  destruct parts as [| q parts]; [simpl; lia |].
  change (line_join [c] (p :: q :: parts))
    with (p ++ [c] ++ line_join [c] (q :: parts))%list.
  rewrite !length_app, IH. simpl. lia.
Qed.

Lemma foldl_none {A B} (f : option A -> B -> option A) l :
  (forall b, f None b = None) -> foldl f None l = None.
Proof. intros Hf. induction l as [| b l IH]; simpl; [done | by rewrite Hf]. Qed.

(** The widths after the first [n] cells of a row have been read. *)
Lemma widen_prefix (n : nat) ws r :
  (n <= length r)%nat ->
  exists ws',
    foldl (fun acc i =>
             ws ← acc;
             cell ← r !! i;
             Some (alter (fun w => Nat.max w (String.length cell)) i ws))
          (Some ws) (seq 0 n) = Some ws' /\
    length ws' = length ws /\
    forall i, ws' !! i =
      if decide (i < n)%nat
      then (fun w => Nat.max w (String.length (r !!! i))) <$> ws !! i
      else ws !! i.
Proof.
  induction n as [| n IH]; intros Hn.
  - exists ws. split; [done |]. split; [done |]. intros i.
    by rewrite decide_False by lia.
  - destruct (IH ltac:(lia)) as (ws1 & Hfold & Hlen & Hlook).
    destruct (lookup_lt_is_Some_2 r n ltac:(lia)) as [cell Hcell].
    exists (alter (fun w => Nat.max w (String.length cell)) n ws1).
    split; [| split].
    + rewrite seq_S, foldl_app, Hfold. simpl. by rewrite Hcell.
    + by rewrite length_alter.
    + intros i. destruct (decide (i = n)) as [-> | Hne].
      * rewrite list_lookup_alter_eq, Hlook.
        rewrite decide_False, decide_True by lia.
        by rewrite (list_lookup_total_correct _ _ _ Hcell).
      * rewrite list_lookup_alter_ne, Hlook by done.
        repeat case_decide; first [done | lia].
Qed.

Lemma widen_short cols ws r : (length r < cols)%nat -> widen cols ws r = None.
Proof.
  intros Hlt. unfold widen.
  replace cols with (length r + S (cols - S (length r)))%nat by lia.
  rewrite seq_app, foldl_app.
  destruct (widen_prefix (length r) ws r ltac:(lia)) as (ws1 & -> & _).
  simpl. rewrite lookup_ge_None_2 by lia. simpl.
  by apply foldl_none.
Qed.

Lemma widen_long cols ws r :
  (cols <= length r)%nat ->
  exists ws',
    widen cols ws r = Some ws' /\ length ws' = length ws /\
    Forall2 le ws ws' /\
    (length ws = cols -> fits ws' r).
Proof.
  intros Hlong.
  destruct (widen_prefix cols ws r Hlong) as (ws' & Hfold & Hlen & Hlook).
  exists ws'. split; [done |]. split; [done |]. split.
  - apply Forall2_same_length_lookup. split; [done |].
    intros i w w' Hw Hw'. rewrite Hlook, Hw in Hw'.
    case_decide; simpl in Hw'; injection Hw' as <-; lia.
  - intros Hcols i w cell Hw Hcell.
    assert (i < cols)%nat.
    { rewrite <- Hcols, <- Hlen. by eapply lookup_lt_Some. }
    rewrite Hlook in Hw.
    rewrite decide_True in Hw by done.
    rewrite (list_lookup_total_correct _ _ _ Hcell) in Hw.
    destruct (ws !! i); simpl in Hw; [| done]. injection Hw as <-. lia.
Qed.

Lemma fits_mono ws ws' r : Forall2 le ws ws' -> fits ws r -> fits ws' r.
Proof.
  intros Hle Hfit i w' cell Hw' Hcell.
  destruct (Forall2_lookup_r _ _ _ _ _ Hle Hw') as (w & Hw & Hww).
  specialize (Hfit i w cell Hw Hcell). lia.
Qed.

Lemma column_widths_fold cols ws0 rows :
  length ws0 = cols ->
  Forall (fun r => (cols <= length r)%nat) rows ->
  exists ws,
    foldl (fun acc r => ws ← acc; widen cols ws r) (Some ws0) rows = Some ws /\
    length ws = cols /\ Forall2 le ws0 ws /\ Forall (fits ws) rows.
Proof.
  intros Hlen Hrows. revert ws0 Hlen.
  induction Hrows as [| r rows Hr _ IH]; intros ws0 Hlen.
  - exists ws0. repeat split; [done | | done].
    apply Forall2_same_length_lookup. split; [done |].
    intros i w w' Hw Hw'. rewrite Hw in Hw'. injection Hw' as <-. lia.
  - destruct (widen_long cols ws0 r Hr) as (ws1 & Hw & Hlen1 & Hle1 & Hfit1).
    destruct (IH ws1 ltac:(lia)) as (ws & Hfold & Hlen2 & Hle2 & Hfits).
    exists ws. split; [by simpl; rewrite Hw |]. split; [done |]. split.
    + apply Forall2_same_length_lookup. split; [lia |].
      intros i w w' Hwi Hwi'.
      destruct (Forall2_lookup_l _ _ _ _ _ Hle1 Hwi) as (w1 & Hw1 & ?).
      destruct (Forall2_lookup_l _ _ _ _ _ Hle2 Hw1) as (w2 & Hw2 & ?).
      rewrite Hwi' in Hw2. injection Hw2 as <-. lia.
    + constructor; [| done]. eapply fits_mono; [exact Hle2 | by apply Hfit1].
Qed.

Lemma column_widths_short cols ws0 rows :
  Exists (fun r => (length r < cols)%nat) rows ->
  foldl (fun acc r => ws ← acc; widen cols ws r) (Some ws0) rows = None.
Proof.
  intros Hex. revert ws0. induction Hex as [r rows Hr | r rows _ IH]; intros ws0.
  - simpl. rewrite widen_short by done. by apply foldl_none.
  - simpl. destruct (widen cols ws0 r) as [ws1 |]; [apply IH |].
    by apply foldl_none.
Qed.

Lemma ustr_length s : length (ustr s) = String.length s.
Proof.
  unfold ustr. rewrite length_fmap.
  induction s as [| c s IH]; simpl; [done | by rewrite IH].
Qed.

Lemma ljust_length s w : (length s <= w)%nat -> length (ljust s w) = w.
Proof. intros Hle. unfold ljust. rewrite length_app, length_replicate. lia. Qed.

(** A row that fits is printed as wide as a border. *)
Lemma text_line_length cols ws r (a b c : N) :
  length ws = cols -> (cols <= length r)%nat -> fits ws r ->
  exists l, text_line cols ws r = Some l /\
            length l = length (hor_line ws a b c).
Proof.
  intros Hlen Hlong Hfit. unfold text_line.
  set (cell := fun i : nat =>
    (32%N :: ljust (ustr (r !!! i)) (ws !!! i) ++ [32%N])%list).
  assert (HmapM : mapM (fun i =>
                          cell ← r !! i;
                          w ← ws !! i;
                          Some (32%N :: ljust (ustr cell) w ++ [32%N])%list)
                       (seq 0 cols) = Some (cell <$> seq 0 cols)).
  { apply mapM_Some, Forall2_fmap_r, Forall_Forall2_diag, Forall_forall.
    intros i Hi%elem_of_seq.
    destruct (lookup_lt_is_Some_2 r i ltac:(lia)) as [x Hx].
    destruct (lookup_lt_is_Some_2 ws i ltac:(lia)) as [w Hw].
    rewrite Hx, Hw. simpl. unfold cell.
    by rewrite (list_lookup_total_correct _ _ _ Hx),
      (list_lookup_total_correct _ _ _ Hw). }
  rewrite HmapM. simpl. eexists. split; [reflexivity |].
  unfold hor_line. simpl. rewrite !length_app, !line_join_length.
  rewrite !length_fmap, length_seq, Hlen. simpl.
  do 2 f_equal. f_equal. f_equal.
  rewrite <- !list_fmap_compose.
  apply list_eq. intros i. rewrite !list_lookup_fmap.
  destruct (decide (i < cols)%nat) as [Hi | Hi].
  - rewrite lookup_seq_lt by done.
    destruct (lookup_lt_is_Some_2 r i ltac:(lia)) as [x Hx].
    destruct (lookup_lt_is_Some_2 ws i ltac:(lia)) as [w Hw].
    rewrite Hw. simpl. unfold cell.
    rewrite (list_lookup_total_correct _ _ _ Hx),
      (list_lookup_total_correct _ _ _ Hw).
    rewrite length_app, ljust_length, length_replicate.
    + f_equal. simpl. lia.
    + rewrite ustr_length. by eapply Hfit.
  - rewrite lookup_seq_ge by lia.
    by rewrite lookup_ge_None_2 by lia.
Qed.

Lemma hor_line_length ws (a b c a' b' c' : N) :
  length (hor_line ws a b c) = length (hor_line ws a' b' c').
Proof. unfold hor_line. simpl. by rewrite !length_app, !line_join_length. Qed.

Lemma row_lines_spec cols ws n idx rows :
  length ws = cols ->
  Forall (fun r => (cols <= length r)%nat) rows ->
  Forall (fits ws) rows ->
  exists ls,
    row_lines cols ws n idx rows = Some ls /\
    length ls = (2 * length rows)%nat /\
    Forall (fun l => length l = length (hor_line ws box_TL box_TJ box_TR)) ls.
Proof.
  intros Hlen Hlong Hfits. revert idx.
  induction Hlong as [| r rows Hr _ IH]; intros idx.
  - by exists [].
  - apply Forall_cons in Hfits as [Hfit Hfits].
    destruct (text_line_length cols ws r box_TL box_TJ box_TR Hlen Hr Hfit)
      as (l & Hl & Hll).
    destruct (IH Hfits (S idx)) as (ls & Hls & Hlen' & Hall).
    eexists. split; [by cbn [row_lines]; rewrite Hl, Hls |].
    split; [simpl; lia |].
    constructor; [done |]. constructor; [| done].
    destruct (idx <? n - 1)%nat; apply hor_line_length.
Qed.

Lemma render_ok headers rows :
  Forall (fun r => (length headers <= length r)%nat) rows ->
  exists ws lines,
    render_boxed_table headers rows = Some lines /\
    length lines = (3 + 2 * length rows)%nat /\
    Forall (fun l => length l = length (hor_line ws box_TL box_TJ box_TR)) lines.
Proof.
  intros Hlong. unfold render_boxed_table, column_widths.
  destruct (column_widths_fold (length headers) (String.length <$> headers) rows
              ltac:(by rewrite length_fmap) Hlong)
    as (ws & -> & Hlen & Hle & Hfits).
  cbn [mbind option_bind].
  assert (Hfit0 : fits ws headers).
  { apply (fits_mono _ _ _ Hle). intros i w cell Hw Hcell.
    rewrite list_lookup_fmap, Hcell in Hw. injection Hw as <-. lia. }
  destruct (text_line_length (length headers) ws headers box_TL box_TJ box_TR
              Hlen ltac:(lia) Hfit0) as (hdr & -> & Hhdr).
  cbn [mbind option_bind].
  destruct (row_lines_spec (length headers) ws (length rows) O rows
              Hlen Hlong Hfits) as (body & -> & Hbody & Hall).
  cbn [mbind option_bind].
  exists ws. eexists. split; [reflexivity |].
  split; [simpl; lia |].
  constructor; [done |]. constructor; [done |]. constructor; [| done].
  apply hor_line_length.
Qed.

Lemma render_short headers rows :
  Exists (fun r => (length r < length headers)%nat) rows ->
  render_boxed_table headers rows = None.
Proof.
  intros Hex. unfold render_boxed_table, column_widths.
  by rewrite column_widths_short.
Qed.

(** X24. [render_boxed_table] fails with [IndexError], before printing
    anything, exactly when some row has fewer cells than there are
    headers. *)
Theorem boxed_table_index_error headers rows :
  render_boxed_table headers rows = None <->
  exists r, r ∈ rows /\ (length r < length headers)%nat.
Proof.
  rewrite <- Exists_exists. split; [| apply render_short].
  intros Hnone.
  destruct (decide (Exists (fun r => (length r < length headers)%nat) rows))
    as [| Hno]; [done |].
  apply not_Exists_Forall in Hno; [| intros r; apply _].
  destruct (render_ok headers rows) as (ws & lines & Hsome & _).
  { eapply Forall_impl; [exact Hno |]. simpl. lia. }
  congruence.
Qed.

(** X25. The table printed is a rectangle: three lines for the top, the
    headers and their separator, two more for each row, and all lines of
    one and the same length, whatever the lengths of the cells. *)
Theorem boxed_table_rectangular headers rows lines :
  render_boxed_table headers rows = Some lines ->
  length lines = (3 + 2 * length rows)%nat /\
  exists width, Forall (fun l => length l = width) lines.
Proof.
  intros Hsome.
  destruct (decide (Exists (fun r => (length r < length headers)%nat) rows))
    as [Hshort | Hno].
  { rewrite render_short in Hsome by done. done. }
  apply not_Exists_Forall in Hno; [| intros r; apply _].
  destruct (render_ok headers rows) as (ws & lines' & Hsome' & Hcount & Hall).
  { eapply Forall_impl; [exact Hno |]. simpl. lia. }
  rewrite Hsome in Hsome'. injection Hsome' as <-. eauto.
Qed.

(** X26. Listing cannot fail on its table: for every ledger, limit and
    behaviour of the API, [--list] prints either the one line saying that
    there are no reminders, when the listing is empty, or a table of
    three lines and two more for each row listed, all of one length. *)
Theorem list_command_prints api t limit :
  exists lines,
    list_command api t limit = Some lines /\
    (list_reminders t limit = [] ->
     lines = [ustr "No persisted reminders found."]) /\
    (list_reminders t limit <> [] ->
     length lines = (3 + 2 * length (list_reminders t limit))%nat /\
     exists width, Forall (fun l => length l = width) lines).
Proof.
  unfold list_command.
  destruct (list_reminders t limit) as [| r rows] eqn:Hrows.
  - eexists. split; [reflexivity |]. split; [done |]. by intros [].
  - destruct (render_ok ["Name"; "ID"; "Last Notified"]
      ((fun r : row => [get_maintenance_name api r.1; r.1; r.2])
         <$> (r :: rows))) as (ws & lines & Hsome & Hcount & Hall).
    { apply Forall_fmap, Forall_forall. intros ? _. simpl. lia. }
    exists lines. split; [exact Hsome |]. split; [done |]. intros _.
    rewrite length_fmap in Hcount. eauto.
Qed.

End TableFacts.

(** ** The further statements at concrete entries *)

Section MoreInstances.
Import Calendar.

Ltac compute_eq := vm_compute; reflexivity.
Ltac date_in_range :=
  unfold valid_date, MAXORDINAL; vm_compute; split; discriminate.

Lemma scheduled_as_pump : scheduled_as pump "2024-06-10".
Proof. split; [discriminate | left; reflexivity]. Defined.

Lemma due_only_inside_window_witness :
  exists s sd,
    scheduled_as pump s /\ @dateparser_parse iso_parser s = Ok sd /\
    @completed iso_parser pump = false /\ sd - 3 <= june 9 <= sd + 2.
Proof.
  exact (@due_only_inside_window iso_parser cfg_daily (june 9) pump
           ltac:(compute_eq)).
Defined.

Lemma window_first_day_witness :
  @is_due iso_parser cfg_every2 (june 10 - 3) pump = Ok true.
Proof.
  refine (proj1 (@window_first_day iso_parser cfg_every2 pump "2024-06-10"
                   (june 10) scheduled_as_pump _ _ _ _) _);
    first [compute_eq | date_in_range | vm_compute; discriminate].
Defined.

Lemma scheduled_as_ancient : scheduled_as ancient "0001-01-02".
Proof. split; [discriminate | left; reflexivity]. Defined.

Lemma due_day_count_witness :
  Z.of_nat (length (@due_days iso_parser cfg_every2 pump (june 10 - 3)
                                                         (june 10 + 2))) = 3 /\
  Z.of_nat (length (@due_days iso_parser cfg_every2 ancient (date_of 1 1 2 - 3)
                                                            (date_of 1 1 2 + 2)))
  = 0.
Proof.
  split.
  - refine (proj1 (@due_day_count iso_parser cfg_every2 pump "2024-06-10"
                     (june 10) scheduled_as_pump _ _) _ _ _);
      first [compute_eq | date_in_range | vm_compute; discriminate].
  - refine (proj2 (@due_day_count iso_parser cfg_every2 ancient "0001-01-02"
                     (date_of 1 1 2) scheduled_as_ancient _ _) _);
      [compute_eq | compute_eq |].
    left. intros [[Hlo _] _]. vm_compute in Hlo. exact (Hlo eq_refl).
Defined.

Lemma scheduled_date_alias_witness :
  @is_due iso_parser cfg_zero (june 10) alias_only
  = @is_due iso_parser cfg_zero (june 10)
      (<["scheduledDate" := JStr "2024-06-10"]> alias_only).
Proof.
  refine (proj1 (@scheduled_date_alias iso_parser cfg_zero (june 10) alias_only)
            (JStr "2024-06-10") _ _); [by left | reflexivity].
Defined.

Lemma unparsable_completion_is_ignored_witness :
  @is_due iso_parser cfg_daily (june 9) pump_tbd
    = @is_due iso_parser cfg_daily (june 9)
        (delete "completed_date"
           (delete "date" (delete "completedDate" pump_tbd))) /\
  @is_due iso_parser cfg_daily (june 9) pump_tbd = Ok true.
Proof.
  split; [| compute_eq].
  refine (@unparsable_completion_is_ignored iso_parser cfg_daily (june 9)
            pump_tbd "tbd" _ _ _); [compute_eq | discriminate |].
  intros d Hd. vm_compute in Hd. discriminate Hd.
Defined.

Lemma is_due_raises_iff_witness :
  @is_due iso_parser cfg_daily (june 10) ancient = Raise OverflowError.
Proof.
  apply (proj2 (@is_due_raises_iff iso_parser cfg_daily (june 10) ancient
                  OverflowError)).
  split; [reflexivity |].
  exists "0001-01-02", (date_of 1 1 2).
  split; [split; [discriminate | left; reflexivity] |].
  split; [compute_eq |]. split; [compute_eq |].
  intros [[Hlo _] _]. vm_compute in Hlo. by apply Hlo.
Defined.

Lemma mark_notified_frame_witness :
  get_last_notified (mark_notified ledger3 "m-2" "2024-06-08") "m-3"
    = get_last_notified ledger3 "m-3" /\
  length (mark_notified ledger3 "m-9" "2024-06-08") = S (length ledger3).
Proof.
  destruct (mark_notified_frame ledger3 "m-2" "2024-06-08") as (Hother & _).
  destruct (mark_notified_frame ledger3 "m-9" "2024-06-08") as (_ & Hnew & _).
  split; [apply Hother; discriminate | apply Hnew; reflexivity].
Defined.

Lemma reset_undoes_mark_witness :
  snd (reset_reminder (mark_notified ledger3 "m-9" "2024-06-08") "m-9")
  = ledger3.
Proof.
  refine (proj2 (reset_undoes_mark ledger3 "m-9" "2024-06-08" _) _);
    [discriminate | reflexivity].
Defined.

Lemma prune_keeps_dedup_witness :
  get_last_notified
    (snd (prune_old_entries (june 8) [("m-1", "2024-06-08")] 1)) "m-1"
    = Some (isoformat (june 8)) /\
  forall e, ("m-1", e) ∉ ([] : list (string * entry)).
Proof.
  refine (@prune_keeps_dedup iso_parser cfg_daily (june 8) (fun _ => june 8)
            [("m-1", "2024-06-08")] 1 "m-1" [pump] [] [("m-1", "2024-06-08")]
            _ _ _); first [date_in_range | compute_eq].
Defined.

Lemma list_reminders_most_recent_witness :
  exists rest,
    list_reminders ledger3 2 ++ rest ≡ₚ ledger3 /\
    StronglySorted newer_or_same (list_reminders ledger3 2) /\
    (forall r r', r ∈ list_reminders ledger3 2 -> r' ∈ rest ->
                  newer_or_same r r') /\
    length (list_reminders ledger3 2) = 2%nat.
Proof.
  refine (proj1 (list_reminders_most_recent ledger3 2) _).
  split; [vm_compute; discriminate | reflexivity].
Defined.

Lemma run_june8 :
  @filter_and_notify iso_parser cfg_daily (june 8) (fun _ => june 8)
    [("m-1", "2024-06-07")] [pump]
  = Ok ([("m-1", pump)], [("m-1", "2024-06-08")]).
Proof. compute_eq. Defined.

Lemma notify_set_complete_witness :
  ("m-1", pump) ∈ [("m-1", pump)].
Proof.
  refine (@notify_set_complete iso_parser cfg_daily (june 8) (fun _ => june 8)
            [("m-1", "2024-06-07")] [pump] _ [("m-1", "2024-06-08")] O pump "m-1"
            run_june8 _ _ _ _);
    first [reflexivity | compute_eq | vm_compute; discriminate].
Defined.

Lemma notify_set_in_batch_order_witness :
  [("m-1", pump)].*2 `sublist_of` [pump] /\
  forall k e, (k, e) ∈ [("m-1", pump)] -> entry_key e = Ok k.
Proof. exact (notify_set_in_batch_order _ _ _ _ _ _ _ run_june8). Defined.

Lemma run_only_marks_notified_witness :
  get_last_notified [("m-1", "2024-06-08")] "m-2"
  = get_last_notified [("m-1", "2024-06-07")] "m-2".
Proof.
  refine (proj1 (run_only_marks_notified _ _ _ _ _ _ _ run_june8) "m-2" _).
  intros Hin. apply list_elem_of_singleton in Hin. discriminate Hin.
Defined.

Lemma run_raises_iff_witness :
  exists exn,
    @filter_and_notify iso_parser cfg_daily (june 20) (fun _ => june 20) []
      [pump; nameless] = Raise exn.
Proof.
  apply (proj2 (@run_raises_iff iso_parser cfg_daily (june 20)
                  (fun _ => june 20) [] [pump; nameless])).
  exists 1%nat, nameless. split; [reflexivity |]. left.
  repeat split; first [by left; compute_eq | compute_eq].
Defined.

Lemma renotified_on_another_day_witness :
  ("m-1", pump) ∈ [("m-1", pump)] /\
  get_last_notified [("m-1", "2024-06-08")] "m-1" = Some (isoformat (june 8)).
Proof.
  refine (@renotified_on_another_day iso_parser cfg_daily (june 8)
            (fun _ => june 8) [("m-1", "2024-06-07")] [pump] _ _ O pump "m-1"
            (june 7) _ _ _ run_june8 _ _ _ _);
    first [date_in_range | reflexivity | compute_eq | vm_compute; discriminate].
Defined.

Lemma loop_june8 :
  @main_loop iso_parser cfg_daily false [poll_june8; poll_june8; poll_june8] []
  = Ok ([[("m-1", pump)]; []; []], [("m-1", "2024-06-08")]).
Proof. compute_eq. Defined.

Lemma one_poll_per_day_notifies_witness :
  ("m-1", pump) ∉ ([] : list (string * entry)).
Proof.
  refine (@one_poll_per_day_notifies iso_parser cfg_daily false (june 8)
            [poll_june8; poll_june8; poll_june8] [] _ _ _ loop_june8
            0%nat 2%nat [("m-1", pump)] [] "m-1" pump pump _ _ _ _).
  - repeat constructor.
  - lia.
  - reflexivity.
  - reflexivity.
  - apply list_elem_of_here.
Defined.

Lemma fallback_key_exact_witness :
  entry_key padded = Ok ("Replace filter" +:+ "::" +:+ "2024-06-10").
Proof.
  refine (fallback_key_exact padded " Replace filter" "2024-06-10" _ _ _ _ _ _);
    first [by left; compute_eq | compute_eq | discriminate].
Defined.

Lemma display_name_of_fallback_key_witness :
  exists k, entry_key padded = Ok k /\
            forall api, get_maintenance_name api k = "Replace filter".
Proof.
  refine (display_name_of_fallback_key padded " Replace filter" _ _ _ _ _);
    first [by left; compute_eq | compute_eq].
Defined.

Lemma notifier_urls_clean_witness : clean_url "json://host/a".
Proof.
  refine (notifier_urls_clean " json://host/a ;; mailto://b , " _ _).
  vm_compute. apply list_elem_of_here.
Defined.

Lemma clean_two :
  Forall clean_url ["json://host/a"; "mailto://b"].
Proof. repeat constructor; first [discriminate | reflexivity]. Defined.

Lemma notifier_urls_join_witness :
  notifier_urls (str_join ";" ["json://host/a"; "mailto://b"])
  = ["json://host/a"; "mailto://b"].
Proof.
  refine (notifier_urls_join ";" _ _ clean_two). by right.
Defined.

Lemma boxed_table_index_error_witness :
  render_boxed_table ["Name"; "ID"] [["Pump"; "m-1"]; ["Fan unit"]] = None.
Proof.
  apply (proj2 (boxed_table_index_error _ _)).
  exists ["Fan unit"]. split; [| simpl; lia].
  apply list_elem_of_further, list_elem_of_here.
Defined.

Lemma boxed_table_rectangular_witness :
  exists lines,
    render_boxed_table ["Name"; "ID"] [["Pump"; "m-1"]; ["Fan unit"; "m-22"]]
      = Some lines /\
    length lines = 7%nat /\ exists width, Forall (fun l => length l = width) lines.
Proof.
  destruct (render_boxed_table ["Name"; "ID"]
              [["Pump"; "m-1"]; ["Fan unit"; "m-22"]]) as [lines |] eqn:Hlines;
    [| vm_compute in Hlines; discriminate Hlines].
  exists lines. split; [reflexivity |].
  exact (boxed_table_rectangular _ _ _ Hlines).
Defined.

Lemma list_command_prints_witness :
  exists lines,
    list_command no_api ledger3 100 = Some lines /\ length lines = 9%nat.
Proof.
  destruct (list_command_prints no_api ledger3 100)
    as (lines & Hsome & _ & Htable).
  exists lines. split; [exact Hsome |].
  apply Htable. vm_compute. discriminate.
Defined.

Lemma delivered_message_shows_dates_witness :
  exists lines,
    delivery_text (WebhookPost "http://hook" (reminder_message [pump]))
    = str_join newline
        (("Homebox maintenance reminders (" +:+ pretty 1%nat +:+ "):") :: lines) /\
    Forall2 (fun ke l => @shows_date iso_parser ke.2 l) [("m-1", pump)] lines.
Proof.
  refine (@delivered_message_shows_dates iso_parser cfg_daily (june 8)
            (fun _ => june 8) [("m-1", "2024-06-07")] [pump] _ _
            (fun _ => false) " , ;" "http://hook" _ run_june8 _).
  vm_compute. apply list_elem_of_here.
Defined.

End MoreInstances.
